(** * vulnscanner: manifest parsing and report rendering

    A shallow embedding of [main.go] (the table renderer) together with the
    functions of the box renderer that differ from it, and the properties
    the specification states about them.

    Go strings are byte sequences: they are modelled as [string] (a list of
    8-bit [ascii] values), [len] is [String.length], [int] is [Z] (no string
    is long enough for a 64-bit count to wrap), a panic is [None]. *)

From Stdlib Require Import String Ascii ZArith List Lia Bool DecimalString.
From Stdlib Require Import Floats.SpecFloat.
Import ListNotations.
Open Scope string_scope.
Open Scope Z_scope.

(** ** Byte strings *)

Definition byteVal (a : ascii) : Z := Z.of_N (N_of_ascii a).

Definition len (s : string) : Z := Z.of_nat (String.length s).

Fixpoint drop (n : nat) (s : string) : string :=
  match n, s with
  | O, _ => s
  | S _, EmptyString => EmptyString
  | S k, String _ t => drop k t
  end.

Definition take (n : nat) (s : string) : string := substring 0 n s.

(** [s[:hi]]: the slice panics when [hi] is negative or beyond [len(s)]. *)
Definition sliceTo (s : string) (hi : Z) : option string :=
  if (hi <? 0) || (len s <? hi) then None else Some (take (Z.to_nat hi) s).

(** [s[lo:]] for an index the caller has already computed inside [s]. *)
Definition sliceFrom (s : string) (lo : nat) : string := drop lo s.

(** ** unicode/utf8 *)
Module Utf8.

Definition RuneError : Z := 0xFFFD.

(** The [first] table of the decoder: for a lead byte, the size of the
    sequence and the range accepted for its second byte. *)
Definition leadInfo (b : Z) : option (nat * (Z * Z)) :=
  if (0xC2 <=? b) && (b <=? 0xDF) then Some (2%nat, (0x80, 0xBF)) else
  if b =? 0xE0 then Some (3%nat, (0xA0, 0xBF)) else
  if (0xE1 <=? b) && (b <=? 0xEC) then Some (3%nat, (0x80, 0xBF)) else
  if b =? 0xED then Some (3%nat, (0x80, 0x9F)) else
  if (0xEE <=? b) && (b <=? 0xEF) then Some (3%nat, (0x80, 0xBF)) else
  if b =? 0xF0 then Some (4%nat, (0x90, 0xBF)) else
  if (0xF1 <=? b) && (b <=? 0xF3) then Some (4%nat, (0x80, 0xBF)) else
  if b =? 0xF4 then Some (4%nat, (0x80, 0x8F)) else
  None.

Definition outside (lo hi v : Z) : bool := (v <? lo) || (hi <? v).

(** [utf8.DecodeRuneInString]: the first rune of [s] and its width in bytes.
    Every failure (bad lead byte, missing byte, byte out of range) yields
    [(RuneError, 1)]. *)
Definition DecodeRuneInString (s : string) : Z * nat :=
  match s with
  | EmptyString => (RuneError, 0%nat)
  | String c0 t0 =>
    let s0 := byteVal c0 in
    if s0 <? 0x80 then (s0, 1%nat) else
    match leadInfo s0 with
    | None => (RuneError, 1%nat)
    | Some (sz, (lo, hi)) =>
      match t0 with
      | EmptyString => (RuneError, 1%nat)
      | String c1 t1 =>
        let s1 := byteVal c1 in
        if outside lo hi s1 then (RuneError, 1%nat) else
        if (sz <=? 2)%nat then
          (Z.lor (Z.shiftl (Z.land s0 0x1F) 6) (Z.land s1 0x3F), 2%nat)
        else
        match t1 with
        | EmptyString => (RuneError, 1%nat)
        | String c2 t2 =>
          let s2 := byteVal c2 in
          if outside 0x80 0xBF s2 then (RuneError, 1%nat) else
          if (sz <=? 3)%nat then
            (Z.lor (Z.shiftl (Z.land s0 0x0F) 12)
               (Z.lor (Z.shiftl (Z.land s1 0x3F) 6) (Z.land s2 0x3F)), 3%nat)
          else
          match t2 with
          | EmptyString => (RuneError, 1%nat)
          | String c3 _ =>
            let s3 := byteVal c3 in
            if outside 0x80 0xBF s3 then (RuneError, 1%nat) else
            (Z.lor (Z.shiftl (Z.land s0 0x07) 18)
               (Z.lor (Z.shiftl (Z.land s1 0x3F) 12)
                  (Z.lor (Z.shiftl (Z.land s2 0x3F) 6) (Z.land s3 0x3F))), 4%nat)
          end
        end
      end
    end
  end.

(** The decoding loop, one byte per step: [skip] counts the bytes of the
    current rune still to pass over. *)
Fixpoint countFrom (skip : nat) (s : string) : nat :=
  match s with
  | EmptyString => O
  | String _ t =>
    match skip with
    | S k => countFrom k t
    | O => S (countFrom (snd (DecodeRuneInString s) - 1) t)
    end
  end.

(** [utf8.RuneCountInString]: an invalid byte counts as one rune. *)
Definition RuneCountInString (s : string) : Z := Z.of_nat (countFrom 0 s).

End Utf8.

(** ** unicode *)
Module Unicode.

(** [unicode.IsSpace]: the White_Space property. *)
Definition IsSpace (r : Z) : bool :=
  ((0x09 <=? r) && (r <=? 0x0D)) || (r =? 0x20) || (r =? 0x85) || (r =? 0xA0)
  || (r =? 0x1680) || ((0x2000 <=? r) && (r <=? 0x200A))
  || (r =? 0x2028) || (r =? 0x2029) || (r =? 0x202F) || (r =? 0x205F)
  || (r =? 0x3000).

End Unicode.

(** ** strings *)
Module Strings.

Definition HasPrefix (s p : string) : bool := String.prefix p s.

(** [strings.Index]: the byte offset of the first occurrence, [None] for -1. *)
Definition Index (s substr : string) : option nat := String.index 0 substr s.

Definition closeField (cur : option string) : list string :=
  match cur with
  | Some w => [w]
  | None => []
  end.

Definition extend (cur : option string) (c : ascii) : option string :=
  match cur with
  | Some w => Some (w ++ String c EmptyString)
  | None => Some (String c EmptyString)
  end.

(** The loop of [strings.FieldsFunc(s, unicode.IsSpace)], one byte per step:
    [cur] is the field in progress ([start >= 0]), [skip] the bytes left of
    the rune being passed over. *)
Fixpoint fieldsFrom (skip : nat) (cur : option string) (s : string) : list string :=
  match s with
  | EmptyString => closeField cur
  | String c t =>
    match skip with
    | S k => fieldsFrom k (option_map (fun w => w ++ String c EmptyString) cur) t
    | O =>
      let (r, sz) := Utf8.DecodeRuneInString s in
      if Unicode.IsSpace r
      then (closeField cur ++ fieldsFrom (sz - 1) None t)%list
      else fieldsFrom (sz - 1) (extend cur c) t
    end
  end.

(** [strings.Fields]: the maximal runs of runes that are not white space.
    (On an all-ASCII string Go takes a byte-only path with the same result.) *)
Definition Fields (s : string) : list string := fieldsFrom 0 None s.

(** ASCII part of [strings.ToLower]. *)
Definition lowerByte (c : ascii) : ascii :=
  let v := byteVal c in
  if (0x41 <=? v) && (v <=? 0x5A) then ascii_of_N (Z.to_N (v + 0x20)) else c.

Fixpoint ToLowerASCII (s : string) : string :=
  match s with
  | EmptyString => EmptyString
  | String c t => String (lowerByte c) (ToLowerASCII t)
  end.

End Strings.

(** ** main.go: text layout *)

(** The loop body of [wrapText]: [st] is [(lines, line)]. *)
Definition wrapStep (width : Z) (st : list string * string) (w : string)
  : list string * string :=
  let (lines, line) := st in
  if Utf8.RuneCountInString line + 1 + Utf8.RuneCountInString w >? width
  then ((lines ++ [line])%list, w)
  else (lines, line ++ " " ++ w).

Definition wrapWords (words : list string) (width : Z) : list string :=
  match words with
  | [] => [EmptyString]
  | w0 :: rest =>
    let (lines, line) := fold_left (wrapStep width) rest ([], w0) in
    (lines ++ [line])%list
  end.

Definition wrapText (s : string) (width : Z) : list string :=
  wrapWords (Strings.Fields s) width.

(** [truncate]: [None] is the slice-bounds panic of [s[:max-3]]. *)
Definition truncate (s : string) (max : Z) : option string :=
  if len s >? max then
    match sliceTo s (max - 3) with
    | Some p => Some (p ++ "...")
    | None => None
    end
  else Some s.

(** ** regexp

    A backtracking matcher with Go's leftmost-first preference: a greedy
    repetition tries one more iteration before it tries the rest of the
    pattern.  It runs over bytes; every class used below is decided by ASCII
    bytes alone (a byte of a multi-byte rune is never white space), so it
    finds the same match as Go's rune-based engine. *)
Module Regexp.

Inductive regex : Type :=
| Bol                              (* ^ *)
| Cls (p : ascii -> bool)          (* one byte of a class *)
| Seq (r1 r2 : regex)
| Star (r : regex)                 (* r*, greedy *)
| Grp (n : nat) (r : regex).       (* capture group n *)

(** [r+] *)
Definition Plus (r : regex) : regex := Seq r (Star r).

Fixpoint Lit (s : string) : regex :=
  match s with
  | EmptyString => Star (Cls (fun _ => false))
  | String c EmptyString => Cls (Ascii.eqb c)
  | String c t => Seq (Cls (Ascii.eqb c)) (Lit t)
  end.

(** Capture positions, most recent first: group, start offset, end offset. *)
Definition caps : Type := list (nat * (nat * nat)).

Definition cont : Type := nat -> string -> caps -> option caps.

Fixpoint run (r : regex) (k : cont) (pos : nat) (s : string) (c : caps)
  {struct r} : option caps :=
  match r with
  | Bol => if (pos =? 0)%nat then k pos s c else None
  | Cls p =>
    match s with
    | String a t => if p a then k (S pos) t c else None
    | EmptyString => None
    end
  | Seq r1 r2 => run r1 (run r2 k) pos s c
  | Star r1 =>
    (fix loop (fuel : nat) (pos : nat) (s : string) (c : caps) {struct fuel}
       : option caps :=
       match fuel with
       | O => k pos s c
       | S fuel' =>
         match run r1 (fun pos' s' c' =>
                         if (pos <? pos')%nat then loop fuel' pos' s' c'
                         else None) pos s c with
         | Some res => Some res
         | None => k pos s c
         end
       end) (S (String.length s)) pos s c
  | Grp n r1 => run r1 (fun pos' s' c' => k pos' s' ((n, (pos, pos')) :: c')) pos s c
  end.

(** The leftmost start offset at which the pattern matches. *)
Fixpoint findFrom (r : regex) (start : nat) (s : string) : option caps :=
  match run r (fun pos' _ c => Some ((O, (start, pos')) :: c)) start s [] with
  | Some c => Some c
  | None =>
    match s with
    | EmptyString => None
    | String _ t => findFrom r (S start) t
    end
  end.

Fixpoint lookup (c : caps) (n : nat) : option (nat * nat) :=
  match c with
  | [] => None
  | (m, span) :: rest => if (m =? n)%nat then Some span else lookup rest n
  end.

Definition group (s : string) (c : caps) (n : nat) : string :=
  match lookup c n with
  | Some (b, e) => substring b (e - b) s
  | None => EmptyString
  end.

(** [Regexp.FindStringSubmatch] for a pattern with [ngroups] groups:
    [None] is the nil slice, a match has [ngroups + 1] elements. *)
Definition FindStringSubmatch (r : regex) (ngroups : nat) (s : string)
  : option (list string) :=
  match findFrom r O s with
  | Some c => Some (map (group s c) (seq 0 (S ngroups)))
  | None => None
  end.

(** [Regexp.FindString]: the empty string when nothing matches. *)
Definition FindString (r : regex) (s : string) : string :=
  match findFrom r O s with
  | Some c => group s c O
  | None => EmptyString
  end.

(** [\s] is [[\t\n\f\r ]]. *)
Definition space (a : ascii) : bool :=
  let v := byteVal a in
  (v =? 9) || (v =? 10) || (v =? 12) || (v =? 13) || (v =? 32).

Definition digit (a : ascii) : bool :=
  let v := byteVal a in (48 <=? v) && (v <=? 57).

Definition alnum (a : ascii) : bool :=
  let v := byteVal a in
  digit a || ((65 <=? v) && (v <=? 90)) || ((97 <=? v) && (v <=? 122)).

End Regexp.

(** ** bufio *)
Module Bufio.

Definition MaxScanTokenSize : Z := 64 * 1024.

(** The text cut at every newline; [cur] is the line read so far.  Data left
    after the last newline is a final line when it is not empty. *)
Fixpoint rawLines (cur : string) (s : string) : list string :=
  match s with
  | EmptyString => if String.eqb cur EmptyString then [] else [cur]
  | String c t =>
    if Ascii.eqb c "010"%char then cur :: rawLines EmptyString t
    else rawLines (cur ++ String c EmptyString) t
  end.

Fixpoint dropLast (s : string) : string :=
  match s with
  | EmptyString => EmptyString
  | String _ EmptyString => EmptyString
  | String c t => String c (dropLast t)
  end.

Fixpoint lastIsCR (s : string) : bool :=
  match s with
  | EmptyString => false
  | String c EmptyString => Ascii.eqb c "013"%char
  | String _ t => lastIsCR t
  end.

Definition dropCR (s : string) : string := if lastIsCR s then dropLast s else s.

(** [Scanner.Scan] with the default buffer: a line that does not fit in
    [MaxScanTokenSize] bytes ends the scan (the error is not looked at by
    the caller). *)
Fixpoint tokens (raw : list string) : list string :=
  match raw with
  | [] => []
  | l :: rest => if MaxScanTokenSize <=? len l then [] else dropCR l :: tokens rest
  end.

(** The lines [scanner.Scan] / [scanner.Text] deliver for a file. *)
Definition scanLines (text : string) : list string := tokens (rawLines EmptyString text).

End Bufio.

(** ** main.go: types *)

Inductive result (A : Type) : Type :=
| Ok (a : A)
| Err (msg : string).
Arguments Ok {A} a.
Arguments Err {A} msg.

Record Vulnerability : Type := {
  ID : string;
  Title : string;
  Description : string;
  CVSSScore : spec_float;
  CVE : string;
  Reference : string
}.

Record OSSIndexResponse : Type := {
  Coordinates : string;
  Vulnerabilities : list Vulnerability
}.

(** A [dependency] element selected by
    [//project/dependencies/dependency]: the text of its first [groupId],
    [artifactId] and [version] child, [None] where [SelectElement] is nil. *)
Record Dependency : Type := {
  groupId : option string;
  artifactId : option string;
  version : option string
}.

(** ** main.go: parsers *)

(** [^\s*([^\s]+)\s+v([0-9A-Za-z\.\-\+]+)] *)
Definition depPattern : Regexp.regex :=
  let sp := Regexp.Cls Regexp.space in
  let nonsp := Regexp.Cls (fun a => negb (Regexp.space a)) in
  let ver := Regexp.Cls (fun a =>
    Regexp.alnum a || Ascii.eqb a "."%char || Ascii.eqb a "-"%char
    || Ascii.eqb a "+"%char) in
  Regexp.Seq Regexp.Bol
    (Regexp.Seq (Regexp.Star sp)
       (Regexp.Seq (Regexp.Grp 1 (Regexp.Plus nonsp))
          (Regexp.Seq (Regexp.Plus sp)
             (Regexp.Seq (Regexp.Lit "v") (Regexp.Grp 2 (Regexp.Plus ver)))))).

(** One iteration of the scan loop of [parseGoMod]: the state is
    [(inBlock, coords)]. *)
Definition goModStep (st : bool * list string) (line : string)
  : bool * list string :=
  let (inBlock, coords) := st in
  if Strings.HasPrefix line "require (" then (true, coords)
  else if inBlock && Strings.HasPrefix line ")" then (false, coords)
  else if inBlock || Strings.HasPrefix line "require" then
    match Regexp.FindStringSubmatch depPattern 2 line with
    | Some [_; m1; m2] =>
      (inBlock, (coords ++ [("pkg:golang/" ++ m1 ++ "@v" ++ m2)%string])%list)
    | _ => (inBlock, coords)
    end
  else (inBlock, coords).

(** The coordinates [parseGoMod] collects from the text of an opened file. *)
Definition goModCoords (text : string) : list string :=
  snd (fold_left goModStep (Bufio.scanLines text) (false, [])).

(** [parseGoMod]: [open] is [os.Open] followed by reading the file. *)
Definition parseGoMod (open : string -> result string) (path : string)
  : result (list string) :=
  match open path with
  | Err e => Err e
  | Ok text => Ok (goModCoords text)
  end.

Definition pomStep (coords : list string) (dep : Dependency) : list string :=
  match groupId dep, artifactId dep, version dep with
  | Some g, Some a, Some v =>
    (coords ++ [("pkg:maven/" ++ g ++ "/" ++ a ++ "@" ++ v)%string])%list
  | _, _, _ => coords
  end.

(** [parsePomXML]: [readXML] is [doc.ReadFromFile] followed by
    [doc.FindElements]. *)
Definition parsePomXML (readXML : string -> result (list Dependency))
  (path : string) : result (list string) :=
  match readXML path with
  | Err e => Err e
  | Ok deps => Ok (fold_left pomStep deps [])
  end.

(** ** main.go: rendering *)

Definition ESC : string := String "027"%char EmptyString.
Definition NL : string := String "010"%char EmptyString.

Definition ColorReset : string := ESC ++ "[0m".
Definition ColorBold : string := ESC ++ "[1m".
Definition ColorRed : string := ESC ++ "[31m".
Definition ColorYel : string := ESC ++ "[33m".
Definition ColorBlu : string := ESC ++ "[34m".

(** What the program does to the outside world, in order. *)
Inductive event : Type :=
| Out (s : string)                     (* written to standard output *)
| ErrOut (s : string)                  (* written to standard error *)
| Read (path : string)                 (* a manifest file opened *)
| Post (url : string) (coords : list string)   (* the lookup request *)
| Panic
| Exit (code : Z).

Fixpoint stdout (t : list event) : string :=
  match t with
  | [] => EmptyString
  | Out s :: rest => s ++ stdout rest
  | _ :: rest => stdout rest
  end.

Definition isPost (e : event) : bool :=
  match e with
  | Post _ _ => true
  | _ => false
  end.

Definition isRead (e : event) : bool :=
  match e with
  | Read _ => true
  | _ => false
  end.

(** [%d] *)
Definition itoa (n : Z) : string :=
  DecimalString.NilZero.string_of_int (Z.to_int n).

Fixpoint spaces (n : nat) : string :=
  match n with
  | O => EmptyString
  | S k => " " ++ spaces k
  end.

(** [%-*s]: left-justified, padded with spaces up to [w] runes. *)
Definition padRight (w : Z) (s : string) : string :=
  s ++ spaces (Z.to_nat (w - Utf8.RuneCountInString s)).

Definition tableLineParts (kind : string) : string * string * string * string :=
  if String.eqb kind "top" then ("┌", "┬", "─", "┐")
  else if String.eqb kind "mid" then ("├", "┼", "─", "┤")
  else if String.eqb kind "bot" then ("└", "┴", "─", "┘")
  else (EmptyString, EmptyString, EmptyString, EmptyString).

Fixpoint tableCells (sep mid : string) (widths : list Z) : list event :=
  match widths with
  | [] => []
  | w :: rest =>
    (repeat (Out mid) (Z.to_nat (w + 2))
       ++ (match rest with [] => [] | _ => [Out sep] end)
       ++ tableCells sep mid rest)%list
  end.

Definition printTableLine (kind : string) (widths : list Z) : list event :=
  let '(lft, sep, mid, rgt) := tableLineParts kind in
  (Out lft :: tableCells sep mid widths ++ [Out (rgt ++ NL)%string])%list.

Definition extractCWE (title : string) : string :=
  Regexp.FindString
    (Regexp.Seq (Regexp.Lit "CWE-") (Regexp.Plus (Regexp.Cls Regexp.digit)))
    title.

Definition hyperlink (text url : string) : string :=
  ESC ++ "]8;;" ++ url ++ ESC ++ "\" ++ text ++ ESC ++ "]8;;" ++ ESC ++ "\".

Definition nine : spec_float := S754_finite false 5066549580791808 (-49).
Definition seven : spec_float := S754_finite false 7881299347898368 (-50).
Definition four : spec_float := S754_finite false 4503599627370496 (-50).

(** [a >= b] on float64: false when either side is NaN. *)
Definition fge (a b : spec_float) : bool := SFleb b a.

Definition severityColor (score : spec_float) : string :=
  if fge score nine then ColorRed ++ ColorBold
  else if fge score seven then ColorRed
  else if fge score four then ColorYel
  else ColorReset.

(** The phrase loop of [extractUpgradeSuggestion]: [out] is the text put
    before the token. *)
Fixpoint suggestFrom (out : string) (lower : string) (phrases : list string)
  : string :=
  match phrases with
  | [] => EmptyString
  | p :: rest =>
    match Strings.Index lower p with
    | Some idx =>
      let after := sliceFrom lower (idx + String.length p) in
      match Strings.Fields after with
      | tok :: _ => out ++ tok
      | [] => suggestFrom out lower rest
      end
    | None => suggestFrom out lower rest
    end
  end.

Definition widths : list Z := [18; 9; 10; 40; 20].

Definition width (i : nat) : Z := nth i widths 0.

Section Renderer.

(** [strings.ToLower] and the [%.1f] verb of [fmt] are taken as given. *)
Variable ToLower : string -> string.
Variable fmtFloat1 : spec_float -> string.

Definition phrases : list string :=
  ["upgrade to version "; "fixed in "; "update to version "; "use version "].

Definition extractUpgradeSuggestion (desc : string) : string :=
  suggestFrom "Upgrade to " (ToLower desc) phrases.

(** The suggested-fix cell of a row. *)
Definition suggestedFix (v : Vulnerability) : string :=
  let fix_ := extractUpgradeSuggestion (Description v) in
  if String.eqb fix_ EmptyString then hyperlink "Check reference URL" (Reference v)
  else fix_.

(** The description cell of a row before it is wrapped. *)
Definition renderedDescription (v : Vulnerability) : option string :=
  truncate (Description v) (width 3).

Definition firstRow (v : Vulnerability) (cwe fix_ dl : string) : event :=
  Out ("│ " ++ (ColorBlu ++ ColorBold) ++ padRight (width 0) (CVE v) ++ ColorReset
       ++ " │ " ++ severityColor (CVSSScore v)
       ++ padRight (width 1) (fmtFloat1 (CVSSScore v)) ++ ColorReset
       ++ " │ " ++ padRight (width 2) cwe
       ++ " │ " ++ padRight (width 3) dl
       ++ " │ " ++ ColorYel ++ padRight (width 4) fix_ ++ ColorReset
       ++ " │" ++ NL).

Definition nextRow (dl : string) : event :=
  Out ("│ " ++ padRight (width 0) EmptyString
       ++ " │ " ++ padRight (width 1) EmptyString
       ++ " │ " ++ padRight (width 2) EmptyString
       ++ " │ " ++ padRight (width 3) dl
       ++ " │ " ++ padRight (width 4) EmptyString
       ++ " │" ++ NL).

Definition vulnRows (v : Vulnerability) : option (list event) :=
  let cwe := extractCWE (Title v) in
  let fix_ := suggestedFix v in
  match renderedDescription v with
  | None => None
  | Some desc =>
    match wrapText desc (width 3) with
    | [] => Some []
    | dl :: more => Some (firstRow v cwe fix_ dl :: map nextRow more)
    end
  end.

Fixpoint tableRows (vulns : list Vulnerability) : option (list event) :=
  match vulns with
  | [] => Some []
  | v :: rest =>
    match vulnRows v with
    | None => None
    | Some rows =>
      let sep := match rest with
                 | [] => []
                 | _ => printTableLine "mid" widths
                 end in
      match tableRows rest with
      | None => None
      | Some more => Some (rows ++ sep ++ more)%list
      end
    end
  end.

(** [printVulnTable]: [None] when rendering a row panics. *)
Definition printVulnTable (dep : string) (vulns : list Vulnerability)
  : option (list event) :=
  match tableRows vulns with
  | None => None
  | Some rows =>
    Some ([Out (NL ++ ColorBold ++ "Dependency:" ++ ColorReset ++ " " ++ dep ++ NL ++ NL)]
          ++ printTableLine "top" widths
          ++ [Out (ColorBold ++ "│ " ++ padRight (width 0) "CVE"
                   ++ " │ " ++ padRight (width 1) "Severity"
                   ++ " │ " ++ padRight (width 2) "CWE"
                   ++ " │ " ++ padRight (width 3) "Description"
                   ++ " │ " ++ padRight (width 4) "Suggested Fix"
                   ++ " │" ++ ColorReset ++ NL)]
          ++ printTableLine "mid" widths
          ++ rows
          ++ printTableLine "bot" widths)%list
  end.

(** ** main.go: driver *)

Definition ossIndexURL : string :=
  "https://ossindex.sonatype.org/api/v3/component-report".

(** The collaborators of the driver: [filepath.Join], the file system as the
    two parsers read it, and the lookup service as [checkVulnerabilities]
    sees it (request, transport and decoding of the answer). *)
Record Env : Type := {
  Join : string -> string -> string;
  open : string -> result string;
  readXML : string -> result (list Dependency);
  checkVulnerabilities : list string -> result (list OSSIndexResponse)
}.

Variable env : Env.

(** The loop over the results: [(totalDeps, totalVulns, output)], [None]
    after a panic. *)
Definition reportStep (st : option (Z * Z * list event)) (r : OSSIndexResponse)
  : option (Z * Z * list event) :=
  match st with
  | None => None
  | Some (totalDeps, totalVulns, out) =>
    if (0 <? Z.of_nat (List.length (Vulnerabilities r))) then
      match printVulnTable (Coordinates r) (Vulnerabilities r) with
      | None => None
      | Some t =>
        Some (totalDeps + 1,
              totalVulns + Z.of_nat (List.length (Vulnerabilities r)),
              (out ++ t)%list)
      end
    else Some (totalDeps, totalVulns, out)
  end.

Definition summaryLine (totalDeps totalVulns : Z) : string :=
  NL ++ "Summary: " ++ itoa totalDeps ++ " dependencies affected, "
     ++ itoa totalVulns ++ " vulnerabilities found." ++ NL.

Definition cleanLine : string := "✅ No known vulnerabilities found!" ++ NL.

(** The report part of [main], after the lookup has answered. *)
Definition report (results : list OSSIndexResponse) : list event :=
  match fold_left reportStep results (Some (0, 0, [])) with
  | None => [Panic]
  | Some (totalDeps, totalVulns, out) =>
    if totalVulns =? 0 then (out ++ [Out cleanLine])%list
    else (out ++ [Out (summaryLine totalDeps totalVulns)])%list
  end.

Definition usageLine : string :=
  "Usage: vulnscanner [go|java] /path/to/project" ++ NL.

Definition supportedLine : string := "Supported languages: go, java" ++ NL.

(** The part of [main] after a parser has returned. *)
Definition afterParse (lang : string) (parsed : result (list string))
  : list event :=
  match parsed with
  | Err e => [ErrOut ("Error parsing: " ++ e ++ NL); Exit 1]
  | Ok coords =>
    if (Z.of_nat (List.length coords) =? 0) then
      [Out ("No dependencies found." ++ NL); Exit 0]
    else
      (Out (ColorBold ++ "Parsing " ++ lang ++ " → found "
            ++ itoa (Z.of_nat (List.length coords))
            ++ " dependencies. Querying vulnerabilities…" ++ ColorReset
            ++ NL ++ NL)
       :: Post ossIndexURL coords
       :: match checkVulnerabilities env coords with
          | Err e => [ErrOut ("Error fetching vulnerabilities: " ++ e ++ NL); Exit 1]
          | Ok results => report results
          end)%list
  end.

(** [main] on [os.Args]; a trace without [Exit] ends with status 0. *)
Definition main (args : list string) : list event :=
  match args with
  | [_; lang; path] =>
    if String.eqb lang "go" then
      let p := Join env path "go.mod" in
      Read p :: afterParse lang (parseGoMod (open env) p)
    else if String.eqb lang "java" then
      let p := Join env path "pom.xml" in
      Read p :: afterParse lang (parsePomXML (readXML env) p)
    else [Out supportedLine; Exit 1]
  | _ => [Out usageLine; Exit 1]
  end.

End Renderer.

(** The exit status of a run. *)
Definition exitStatus (t : list event) : option Z :=
  match last t (Exit 0) with
  | Exit c => Some c
  | Panic => None
  | _ => Some 0
  end.

(** ** The box renderer (the variant of the program with [printVulnBox]) *)
Module Box.

Definition phrases : list string :=
  ["upgrade to version "; "upgrade to "; "fixed in "; "update to version ";
   "use version "].

Definition extractUpgradeSuggestion (ToLower : string -> string) (desc : string)
  : string :=
  suggestFrom "Upgrade to version " (ToLower desc) phrases.

(** [truncate] of the box renderer keeps [l] bytes and appends the dots. *)
Definition truncate (s : string) (l : Z) : option string :=
  if len s >? l then
    match sliceTo s l with
    | Some p => Some (p ++ "...")
    | None => None
    end
  else Some s.

End Box.

(** ** Vocabulary of the specification *)

(** Words joined by single spaces. *)
Definition joinSp (ws : list string) : string := String.concat " " ws.

(** A line of [wrapText] made of the words [g]: one word alone, or a run
    that fits in the width. *)
Definition fits (width : Z) (g : list string) : Prop :=
  (exists w, g = [w]) \/ Utf8.RuneCountInString (joinSp g) <= width.

Inductive SeverityTier : Type := Critical | High | Medium | Low.

(** The display emphasis of a tier. *)
Definition emphasis (t : SeverityTier) : string :=
  match t with
  | Critical => ColorRed ++ ColorBold
  | High => ColorRed
  | Medium => ColorYel
  | Low => ColorReset
  end.

(** float64 values of the decimal literals 8.99, 6.99 and 3.99. *)
Definition f8_99 : spec_float := S754_finite false 5060920081257595 (-49).
Definition f6_99 : spec_float := S754_finite false 7870040348829942 (-50).
Definition f3_99 : spec_float := S754_finite false 8984681256604140 (-51).

(** The token that follows the first occurrence of phrase [p] in [lower],
    when [p] occurs and a token follows it. *)
Definition tokenAfter (lower p : string) : option string :=
  match Strings.Index lower p with
  | Some idx => hd_error (Strings.Fields (sliceFrom lower (idx + String.length p)))
  | None => None
  end.

Definition occurs (lower p : string) : bool :=
  match Strings.Index lower p with
  | Some _ => true
  | None => false
  end.

(** Upgrade-hint extraction as the specification words it: the first phrase
    of the list that occurs decides; [None] is the fallback. *)
Definition claimedSuggestion (lower : string) : option string :=
  match find (occurs lower) Box.phrases with
  | Some p =>
    match tokenAfter lower p with
    | Some tok => Some ("Upgrade to version " ++ tok)
    | None => None
    end
  | None => None
  end.

(** What the parser returned in a run, [None] when no parser ran. *)
Definition parserResult (env : Env) (args : list string)
  : option (result (list string)) :=
  match args with
  | [_; lang; path] =>
    if String.eqb lang "go" then
      Some (parseGoMod (open env) (Join env path "go.mod"))
    else if String.eqb lang "java" then
      Some (parsePomXML (readXML env) (Join env path "pom.xml"))
    else None
  | _ => None
  end.

Definition vulnCount (r : OSSIndexResponse) : Z :=
  Z.of_nat (List.length (Vulnerabilities r)).

(** Reports with at least one vulnerability. *)
Definition affected (results : list OSSIndexResponse) : Z :=
  Z.of_nat (List.length (filter (fun r => 0 <? vulnCount r) results)).

(** Vulnerabilities over all reports. *)
Definition totalVulnerabilities (results : list OSSIndexResponse) : Z :=
  fold_right (fun r acc => vulnCount r + acc) 0 results.


(** A trace that only writes to standard output. *)
Definition onlyOut (t : list event) : Prop :=
  Forall (fun e => exists s, e = Out s) t.

(** A continuation byte of a multi-byte sequence. *)
Definition isCont (c : ascii) : bool := (0x80 <=? byteVal c) && (byteVal c <=? 0xBF).

(** [s] is empty or begins with a byte that can start a rune. *)
Definition startsRune (s : string) : Prop :=
  match s with
  | EmptyString => True
  | String c _ => isCont c = false
  end.

(** Runes of the fields of a list, plus one per field. *)
Definition weight (fs : list string) : nat :=
  fold_right (fun f acc => (Utf8.countFrom 0 f + 1 + acc)%nat) 0%nat fs.

(** A bad invocation: not exactly two arguments after the program name, or
    a selector that is neither [go] nor [java]. *)
Definition usageError (args : list string) : Prop :=
  List.length args <> 3%nat
  \/ exists prog lang path,
       args = [prog; lang; path] /\ lang <> "go" /\ lang <> "java".

(** An environment for examples: every manifest reads as [manifest], a
    [pom.xml] has the elements [deps], the service answers [answer]. *)
Definition sampleEnv (manifest : string) (deps : list Dependency)
  (answer : list OSSIndexResponse) : Env :=
  {| Join := fun dir name => dir ++ "/" ++ name;
     open := fun _ => Ok manifest;
     readXML := fun _ => Ok deps;
     checkVulnerabilities := fun _ => Ok answer |}.

Definition sampleFmt (score : spec_float) : string := "0.0".

(** * The rest of the program *)

(** ** The pattern of a requirement as a scanner *)

(** The longest prefix of [s] whose bytes satisfy [p], and the rest. *)
Fixpoint spanWhile (p : ascii -> bool) (s : string) : string * string :=
  match s with
  | String a t =>
    if p a then let (x, r) := spanWhile p t in (String a x, r)
    else (EmptyString, s)
  | EmptyString => (EmptyString, EmptyString)
  end.

Fixpoint allBytes (p : ascii -> bool) (s : string) : bool :=
  match s with
  | String a t => p a && allBytes p t
  | EmptyString => true
  end.

(** [s] is empty or begins with a byte outside [p]. *)
Definition stopsAt (p : ascii -> bool) (s : string) : bool :=
  match s with
  | String a _ => negb (p a)
  | EmptyString => true
  end.

Definition nonspace (a : ascii) : bool := negb (Regexp.space a).

Definition verchar (a : ascii) : bool :=
  Regexp.alnum a || Ascii.eqb a "."%char || Ascii.eqb a "-"%char
  || Ascii.eqb a "+"%char.

(** A requirement read from left to right without going back: blanks, a
    token, blanks, the letter [v], version bytes.  The result is the whole
    match, the token and the version. *)
Definition depScan (line : string) : option (list string) :=
  let (ind, r1) := spanWhile Regexp.space line in
  let (tok, r2) := spanWhile nonspace r1 in
  let (sp, r3) := spanWhile Regexp.space r2 in
  match tok, sp, r3 with
  | String _ _, String _ _, String a r4 =>
    if Ascii.eqb "v" a then
      let (ver, _) := spanWhile verchar r4 in
      match ver with
      | String _ _ => Some [ind ++ tok ++ sp ++ "v" ++ ver; tok; ver]
      | EmptyString => None
      end
    else None
  | _, _, _ => None
  end.

(** The loop of a greedy repetition, as [Regexp.run] runs it for [Star]. *)
Section StarLoop.
Variable step : Regexp.cont -> nat -> string -> Regexp.caps -> option Regexp.caps.
Variable k : Regexp.cont.

Fixpoint starLoop (fuel : nat) (pos : nat) (s : string) (c : Regexp.caps)
  {struct fuel} : option Regexp.caps :=
  match fuel with
  | O => k pos s c
  | S fuel' =>
    match step (fun pos' s' c' =>
                  if (pos <? pos')%nat then starLoop fuel' pos' s' c'
                  else None) pos s c with
    | Some res => Some res
    | None => k pos s c
    end
  end.
End StarLoop.

(** A greedy repetition of one class, by recursion on the text: one more
    byte first, the rest of the pattern when that fails. *)
Fixpoint starCls (p : ascii -> bool) (k : Regexp.cont) (pos : nat) (s : string)
  (c : Regexp.caps) : option Regexp.caps :=
  match s with
  | String a t =>
    if p a then
      match starCls p k (S pos) t c with
      | Some r => Some r
      | None => k pos s c
      end
    else k pos s c
  | EmptyString => k pos s c
  end.

(** The continuation that ends a match begun at [start]. *)
Definition finalK (start : nat) : Regexp.cont :=
  fun pos' _ c => Some ((O, (start, pos')) :: c).

(** The pattern of a requirement, from the right. *)
Definition verRe : Regexp.regex := Regexp.Grp 2 (Regexp.Plus (Regexp.Cls verchar)).
Definition vRe : Regexp.regex := Regexp.Seq (Regexp.Lit "v") verRe.
Definition spRe : Regexp.regex :=
  Regexp.Seq (Regexp.Plus (Regexp.Cls Regexp.space)) vRe.
Definition tokRe : Regexp.regex :=
  Regexp.Seq (Regexp.Grp 1 (Regexp.Plus (Regexp.Cls nonspace))) spRe.

(** The coordinate a line of a requirement block stands for, if any. *)
Definition entryCoord (line : string) : list string :=
  match depScan line with
  | Some [_; m; v] => [("pkg:golang/" ++ m ++ "@v" ++ v)%string]
  | _ => []
  end.

(** A line that neither opens nor closes a block. *)
Definition plainLine (line : string) : bool :=
  negb (Strings.HasPrefix line "require (") && negb (Strings.HasPrefix line ")").

(** A coordinate of the Go ecosystem: a module without blanks and a version
    made of version bytes, both non-empty. *)
Definition goCoordinate (c : string) : Prop :=
  exists m v,
    c = "pkg:golang/" ++ m ++ "@v" ++ v
    /\ m <> EmptyString /\ allBytes nonspace m = true
    /\ v <> EmptyString /\ allBytes verchar v = true.

(** ** The CWE token of a title as a scanner *)

Definition cweRe : Regexp.regex :=
  Regexp.Seq (Regexp.Lit "CWE-") (Regexp.Plus (Regexp.Cls Regexp.digit)).

(** [CWE-] and the digits that follow, when [s] begins with them. *)
Definition cweAt (s : string) : option string :=
  match s with
  | String a (String b (String c (String d rest))) =>
    if Ascii.eqb "C" a && Ascii.eqb "W" b && Ascii.eqb "E" c && Ascii.eqb "-" d
    then match fst (spanWhile Regexp.digit rest) with
         | EmptyString => None
         | ds => Some ("CWE-" ++ ds)
         end
    else None
  | _ => None
  end.

(** The first place of [s], from the left, where a CWE token begins. *)
Fixpoint cweScan (s : string) : string :=
  match cweAt s with
  | Some r => r
  | None =>
    match s with
    | String _ t => cweScan t
    | EmptyString => EmptyString
    end
  end.

(** ** Further vocabulary *)

(** The coordinate of a [dependency] element that has its three fields. *)
Definition pomCoord (dep : Dependency) : list string :=
  match groupId dep, artifactId dep, version dep with
  | Some g, Some a, Some v => [("pkg:maven/" ++ g ++ "/" ++ a ++ "@" ++ v)%string]
  | _, _, _ => []
  end.

(** Every break between two lines was forced: the line before it could not
    have taken the first word of the line after it. *)
Fixpoint forced (width : Z) (gs : list (list string)) : Prop :=
  match gs with
  | g :: rest =>
    match rest with
    | (w :: _) :: _ =>
      width < Utf8.RuneCountInString (joinSp g) + 1 + Utf8.RuneCountInString w
    | _ => True
    end /\ forced width rest
  | [] => True
  end.

(** Runes of a border drawn for the column widths [ws], without the line
    end: the two corners, [w + 2] dashes a column, a joint between columns. *)
Definition borderWidth (ws : list Z) : Z :=
  2 + fold_right (fun w acc => Z.of_nat (Z.to_nat (w + 2)) + acc) 0 ws
    + Z.of_nat (Nat.pred (List.length ws)).

Definition isAffected (r : OSSIndexResponse) : bool := 0 <? vulnCount r.

Fixpoint stderr (t : list event) : string :=
  match t with
  | [] => EmptyString
  | ErrOut s :: rest => s ++ stderr rest
  | _ :: rest => stderr rest
  end.

Definition posts (t : list event) : list event := filter isPost t.

(** ** The plain reporter (the variant of the program without tables or
    boxes) *)
Module Plain.

(** The precision of [%.120s]: the bytes of the first [n] runes of [s];
    [skip] counts the bytes of the current rune still to copy. *)
Fixpoint takeRunesFrom (n skip : nat) (s : string) : string :=
  match s with
  | EmptyString => EmptyString
  | String c t =>
    match skip with
    | S k => String c (takeRunesFrom n k t)
    | O =>
      match n with
      | O => EmptyString
      | S n' => String c (takeRunesFrom n' (snd (Utf8.DecodeRuneInString s) - 1) t)
      end
    end
  end.

Definition takeRunes (n : nat) (s : string) : string := takeRunesFrom n 0 s.

Section Reporter.

Variable ToLower : string -> string.
Variable fmtFloat1 : spec_float -> string.

(** The five lines printed for a vulnerability. *)
Definition vulnLines (v : Vulnerability) : list event :=
  [Out ("  - " ++ Title v ++ NL);
   Out ("    CVE: " ++ CVE v ++ NL);
   Out ("    Severity: " ++ fmtFloat1 (CVSSScore v) ++ NL);
   Out ("    Description: " ++ takeRunes 120 (Description v) ++ "..." ++ NL);
   Out ("    More info: " ++ Reference v ++ NL ++ NL)].

(** What is printed for a report that has vulnerabilities. *)
Definition block (r : OSSIndexResponse) : list event :=
  Out (NL ++ "[!] Vulnerabilities found for " ++ Coordinates r ++ ":" ++ NL)
  :: flat_map vulnLines (Vulnerabilities r).

(** The loop of [printReport]: the state is [(vulnFound, output)]. *)
Definition reportStep (st : bool * list event) (r : OSSIndexResponse)
  : bool * list event :=
  let (vulnFound, out) := st in
  if 0 <? Z.of_nat (List.length (Vulnerabilities r))
  then (true, (out ++ block r)%list)
  else (vulnFound, out).

Definition cleanLine : string := "No known vulnerabilities found!" ++ NL.

Definition printReport (results : list OSSIndexResponse) : list event :=
  let (vulnFound, out) := fold_left reportStep results (false, []) in
  if negb vulnFound then (out ++ [Out cleanLine])%list else out.

Variable env : Env.

(** [os.Stat] followed by [os.IsNotExist]. *)
Variable notExist : string -> bool.

Definition usage : list event :=
  [Out ("Usage: vulnscanner <language> <path_to_project>" ++ NL);
   Out ("Example for Go: vulnscanner go /path/to/project" ++ NL);
   Out ("Example for Java: vulnscanner java /path/to/project" ++ NL);
   Exit 1].

Definition afterParse (parsed : result (list string)) : list event :=
  match parsed with
  | Err e => [Out ("Error parsing dependencies: " ++ e ++ NL); Exit 1]
  | Ok pkgs =>
    if (Z.of_nat (List.length pkgs) =? 0) then
      [Out ("No dependencies found." ++ NL); Exit 0]
    else
      (Out ("Found " ++ itoa (Z.of_nat (List.length pkgs))
            ++ " dependencies. Checking vulnerabilities..." ++ NL)
       :: Post ossIndexURL pkgs
       :: match checkVulnerabilities env pkgs with
          | Err e => [Out ("Error querying vulnerabilities: " ++ e ++ NL); Exit 1]
          | Ok results => printReport results
          end)%list
  end.

Definition main (args : list string) : list event :=
  match args with
  | _ :: arg1 :: path :: _ =>
    let lang := ToLower arg1 in
    if String.eqb lang "go" then
      let p := Join env path "go.mod" in
      if notExist p then
        [Out ("go.mod not found in the specified path." ++ NL); Exit 1]
      else
        Out ("Parsing go.mod..." ++ NL) :: Read p
        :: afterParse (parseGoMod (open env) p)
    else if String.eqb lang "java" then
      let p := Join env path "pom.xml" in
      if notExist p then
        [Out ("pom.xml not found in the specified path." ++ NL); Exit 1]
      else
        Out ("Parsing pom.xml..." ++ NL) :: Read p
        :: afterParse (parsePomXML (readXML env) p)
    else [Out supportedLine; Exit 1]
  | _ => usage
  end.

End Reporter.

End Plain.

(** ** The rows of a table *)

(** The description cell of a vulnerability: the cut description with its
    white space normalised. *)
Definition descCell (v : Vulnerability) : string :=
  match renderedDescription v with
  | Some d => joinSp (Strings.Fields d)
  | None => EmptyString
  end.

Section Rows.
Variable ToLower : string -> string.
Variable fmtFloat1 : spec_float -> string.

(** The row of a vulnerability. *)
Definition tableRow (v : Vulnerability) : event :=
  firstRow fmtFloat1 v (extractCWE (Title v)) (suggestedFix ToLower v) (descCell v).

(** Rows with a separator before each row but the first. *)
Definition separatedRows (vulns : list Vulnerability) : list event :=
  match vulns with
  | [] => []
  | v :: rest =>
    tableRow v
    :: flat_map (fun v' => (printTableLine "mid" widths ++ [tableRow v'])%list) rest
  end.

End Rows.

(** ** Vocabulary of the variants *)

(** The runes of [s] as a [for range] loop meets them: each is the bytes of
    one decoded rune, an invalid byte being a rune of its own. *)
Fixpoint runesFuel (fuel : nat) (s : string) : list string :=
  match fuel with
  | O => []
  | S f =>
    match s with
    | EmptyString => []
    | String _ _ =>
      let w := snd (Utf8.DecodeRuneInString s) in
      take w s :: runesFuel f (drop w s)
    end
  end.

Definition runes (s : string) : list string := runesFuel (String.length s) s.

(** [mid] printed [w + 2] times. *)
Definition dashes (mid : string) (w : Z) : string :=
  String.concat EmptyString (repeat mid (Z.to_nat (w + 2))).

(** A border line: corner, the dashes of each column with a joint between
    two columns, corner, line end. *)
Definition border (lft sep mid rgt : string) (ws : list Z) : string :=
  lft ++ String.concat sep (map (dashes mid) ws) ++ rgt ++ NL.

(** A column width [w] for which [w + 2] is an [int] whatever its size. *)
Definition maxWidth : Z := 2147483645.


(** A bad invocation for the plain reporter: fewer than two arguments after
    the program name, or a selector that, in lower case, is neither [go] nor
    [java]. *)
Definition plainUsageError (ToLower : string -> string) (args : list string)
  : Prop :=
  (List.length args < 3)%nat
  \/ exists prog lang path more,
       args = prog :: lang :: path :: more
       /\ ToLower lang <> "go" /\ ToLower lang <> "java".

(** A vulnerability for examples, with the description [d]. *)
Definition describing (d : string) : Vulnerability :=
  {| ID := "sonatype-2021-0001"; Title := "CWE-79: Cross-site Scripting";
     Description := d; CVSSScore := seven; CVE := "CVE-2021-0001";
     Reference := "https://ossindex.sonatype.org/vulnerability/sonatype-2021-0001" |}.

Definition sampleReport : OSSIndexResponse :=
  {| Coordinates := "pkg:golang/github.com/pkg/errors@v0.9.1";
     Vulnerabilities := [describing "first"; describing "second"] |}.

(** * Properties *)

(** ** Byte strings *)

Lemma append_assoc (a b c : string) : (a ++ b) ++ c = a ++ (b ++ c).
Proof. induction a as [|x a IH]; simpl; [reflexivity | now rewrite IH]. Qed.

Lemma append_nil_r (a : string) : a ++ EmptyString = a.
Proof. induction a as [|x a IH]; simpl; [reflexivity | now rewrite IH]. Qed.

Lemma length_append (a b : string) :
  String.length (a ++ b) = (String.length a + String.length b)%nat.
Proof. induction a as [|x a IH]; simpl; [reflexivity | now rewrite IH]. Qed.

Lemma length_take (n : nat) (s : string) :
  (n <= String.length s)%nat -> String.length (take n s) = n.
Proof.
  unfold take. revert s.
  induction n as [|n IH]; intros [|c s] H; simpl in *; try reflexivity; try lia.
  rewrite IH; [reflexivity | lia].
Qed.

(** ** truncate *)

Lemma sliceTo_some (s : string) (hi : Z) :
  0 <= hi <= len s -> sliceTo s hi = Some (take (Z.to_nat hi) s).
Proof.
  intros [H0 H1]. unfold sliceTo.
  destruct (Z.ltb_spec hi 0); [lia|].
  destruct (Z.ltb_spec (len s) hi); [lia|]. reflexivity.
Qed.

Lemma sliceTo_none (s : string) (hi : Z) :
  sliceTo s hi = None <-> (hi < 0 \/ len s < hi).
Proof.
  unfold sliceTo.
  destruct (Z.ltb_spec hi 0); destruct (Z.ltb_spec (len s) hi); simpl;
    split; intros; try reflexivity; try discriminate; try lia.
Qed.

Lemma truncate_within (s : string) (max : Z) :
  3 <= max ->
  exists r, truncate s max = Some r /\ len r <= max
    /\ (len s <= max -> r = s)
    /\ (max < len s -> r = take (Z.to_nat (max - 3)) s ++ "...").
Proof.
  intros Hmax. unfold truncate.
  destruct (Z.gtb_spec (len s) max) as [Hgt|Hle].
  - rewrite sliceTo_some by lia.
    eexists; split; [reflexivity|]. split; [|split].
    + unfold len in *. rewrite length_append, length_take by lia. simpl. lia.
    + lia.
    + reflexivity.
  - exists s. repeat split; auto. lia.
Qed.

(** ** UTF-8 decoding *)

Lemma leadInfo_range b sz lo hi :
  Utf8.leadInfo b = Some (sz, (lo, hi)) ->
  0x80 <= lo /\ hi <= 0xBF /\ (2 <= sz <= 4)%nat /\ 0xC2 <= b.
Proof.
  unfold Utf8.leadInfo.
  repeat match goal with
  | |- context [if ?c then _ else _] => let E := fresh "E" in destruct c eqn:E
  end; intros H; inversion H; subst; repeat split; try lia.
Qed.

Lemma outside_start lo hi c :
  0x80 <= lo -> hi <= 0xBF -> isCont c = false ->
  Utf8.outside lo hi (byteVal c) = true.
Proof.
  unfold isCont, Utf8.outside. intros Hlo Hhi H.
  apply andb_false_iff in H. apply orb_true_iff.
  destruct H as [H|H]; [apply Z.leb_gt in H | apply Z.leb_gt in H];
    [left | right]; apply Z.ltb_lt; lia.
Qed.

Lemma decode_width_le s : (snd (Utf8.DecodeRuneInString s) <= String.length s)%nat.
Proof.
  destruct s as [|c0 [|c1 [|c2 [|c3 t]]]]; simpl;
  repeat match goal with
  | |- context [if ?c then _ else _] => destruct c
  | |- context [match ?x with _ => _ end] => destruct x
  end; simpl; lia.
Qed.

(** Decoding does not look past the start of the next rune. *)
Lemma decode_sync a next :
  a <> EmptyString -> startsRune next ->
  Utf8.DecodeRuneInString (a ++ next) = Utf8.DecodeRuneInString a.
Proof.
  intros Ha Hn. destruct a as [|c0 a]; [congruence|]. clear Ha.
  cbn [append Utf8.DecodeRuneInString].
  destruct (byteVal c0 <? 128); [reflexivity|].
  destruct (Utf8.leadInfo (byteVal c0)) as [[sz [lo hi]]|] eqn:E; [|reflexivity].
  apply leadInfo_range in E. destruct E as (Hlo & Hhi & Hsz & _).
  assert (St : forall x, startsRune x ->
             match x with
             | EmptyString => True
             | String n0 _ => Utf8.outside lo hi (byteVal n0) = true
                              /\ Utf8.outside 128 191 (byteVal n0) = true
             end).
  { intros [|n0 x] Hx; [exact I|]. simpl in Hx.
    split; apply outside_start; auto; lia. }
  specialize (St next Hn).
  destruct a as [|c1 a]; cbn [append].
  { destruct next as [|n0 next]; [reflexivity|]. destruct St as [-> _]. reflexivity. }
  destruct (Utf8.outside lo hi (byteVal c1)); [reflexivity|].
  destruct (sz <=? 2)%nat; [reflexivity|].
  destruct a as [|c2 a]; cbn [append].
  { destruct next as [|n0 next]; [reflexivity|]. destruct St as [_ ->]. reflexivity. }
  destruct (Utf8.outside 128 191 (byteVal c2)); [reflexivity|].
  destruct (sz <=? 3)%nat; [reflexivity|].
  destruct a as [|c3 a]; cbn [append].
  { destruct next as [|n0 next]; [reflexivity|]. destruct St as [_ ->]. reflexivity. }
  reflexivity.
Qed.

Lemma countFrom_sync a : forall k next,
  (k <= String.length a)%nat -> startsRune next ->
  Utf8.countFrom k (a ++ next) = (Utf8.countFrom k a + Utf8.countFrom 0 next)%nat.
Proof.
  induction a as [|c a IH]; intros k next Hk Hn.
  - simpl in Hk. assert (k = 0%nat) by lia. subst. reflexivity.
  - destruct k as [|k].
    + change (String c a ++ next) with (String c (a ++ next)).
      cbn [Utf8.countFrom].
      change (String c (a ++ next)) with (String c a ++ next).
      rewrite decode_sync by (auto; discriminate).
      rewrite IH; auto.
      pose proof (decode_width_le (String c a)) as H.
      change (String.length (String c a)) with (S (String.length a)) in H. lia.
    + simpl. apply IH; auto. simpl in Hk. lia.
Qed.

Lemma countFrom_le s : forall k, (Utf8.countFrom k s <= String.length s)%nat.
Proof.
  induction s as [|c s IH]; intros k; cbn [Utf8.countFrom String.length]; [lia|].
  destruct k as [|k].
  - specialize (IH (snd (Utf8.DecodeRuneInString (String c s)) - 1)%nat). lia.
  - specialize (IH k). lia.
Qed.

Lemma RuneCount_le_len s : Utf8.RuneCountInString s <= len s.
Proof. unfold Utf8.RuneCountInString, len. pose proof (countFrom_le s 0). lia. Qed.

Lemma RuneCount_nonneg s : 0 <= Utf8.RuneCountInString s.
Proof. unfold Utf8.RuneCountInString. lia. Qed.

(** The rune count is additive across a separating space. *)
Lemma RuneCount_space a b :
  Utf8.RuneCountInString (a ++ " " ++ b)
  = Utf8.RuneCountInString a + 1 + Utf8.RuneCountInString b.
Proof.
  unfold Utf8.RuneCountInString.
  rewrite countFrom_sync; [|lia|reflexivity].
  change (" " ++ b) with (String " "%char b).
  cbn [Utf8.countFrom]. 
  replace (snd (Utf8.DecodeRuneInString (String " " b)) - 1)%nat with 0%nat by reflexivity.
  lia.
Qed.

(** ** wrapText *)

Lemma joinSp_cons w g : g <> [] -> joinSp (w :: g) = w ++ " " ++ joinSp g.
Proof. destruct g; [congruence | reflexivity]. Qed.

Lemma joinSp_snoc g w : g <> [] -> joinSp (g ++ [w]) = joinSp g ++ " " ++ w.
Proof.
  induction g as [|x g IH]; [congruence|]. intros _.
  destruct g as [|y g].
  - reflexivity.
  - change ((x :: y :: g) ++ [w])%list with (x :: ((y :: g) ++ [w]))%list.
    rewrite joinSp_cons by (simpl; discriminate).
    rewrite IH by discriminate.
    rewrite (joinSp_cons x (y :: g)) by discriminate.
    now rewrite !append_assoc.
Qed.

Lemma joinSp_app g h :
  g <> [] -> h <> [] -> joinSp (g ++ h) = joinSp g ++ " " ++ joinSp h.
Proof.
  intros Hg Hh. revert g Hg. induction h as [|w h IH]; [congruence|].
  intros g Hg. destruct h as [|v h].
  - now apply joinSp_snoc.
  - change (g ++ w :: v :: h)%list with (g ++ [w] ++ (v :: h))%list.
    rewrite app_assoc, IH; try discriminate.
    + rewrite joinSp_snoc by assumption.
      rewrite (joinSp_cons w (v :: h)) by discriminate.
      now rewrite !append_assoc.
    + destruct g; discriminate.
Qed.

(** The loop of [wrapText] from a line made of the words [g]: the lines it
    ends with are the joins of a partition of the words still to place. *)
Lemma wrap_fold width : forall rest lines g,
  g <> [] -> fits width g ->
  exists gs,
    concat gs = (g ++ rest)%list
    /\ Forall (fun h => h <> []) gs
    /\ Forall (fits width) gs
    /\ (let (ls, l) := fold_left (wrapStep width) rest (lines, joinSp g) in
        (ls ++ [l])%list = (lines ++ map joinSp gs)%list).
Proof.
  induction rest as [|w rest IH]; intros lines g Hg Hfit.
  - exists [g]. simpl. rewrite app_nil_r. repeat split; auto.
  - cbn [fold_left wrapStep].
    destruct (Z.gtb_spec (Utf8.RuneCountInString (joinSp g) + 1
                          + Utf8.RuneCountInString w) width) as [Hgt|Hle].
    + destruct (IH (lines ++ [joinSp g])%list [w]) as (gs & Hc & Hne & Hf & Hl).
      * discriminate.
      * left. now exists w.
      * exists (g :: gs). simpl. rewrite Hc. repeat split; auto.
        change (joinSp [w]) with w in Hl.
        destruct (fold_left (wrapStep width) rest ((lines ++ [joinSp g])%list, w)).
        rewrite Hl. now rewrite <- app_assoc.
    + destruct (IH lines (g ++ [w])%list) as (gs & Hc & Hne & Hf & Hl).
      * destruct g; discriminate.
      * right. rewrite joinSp_snoc by assumption. rewrite RuneCount_space. lia.
      * exists gs. rewrite Hc, <- app_assoc. repeat split; auto.
        rewrite joinSp_snoc in Hl by assumption. exact Hl.
Qed.

Lemma wrapWords_partition words width :
  (words = [] /\ wrapWords words width = [EmptyString])
  \/ exists gs,
       concat gs = words
       /\ Forall (fun g => g <> []) gs
       /\ Forall (fits width) gs
       /\ wrapWords words width = map joinSp gs.
Proof.
  destruct words as [|w0 rest]; [left; auto | right].
  destruct (wrap_fold width rest [] [w0]) as (gs & Hc & Hne & Hf & Hl).
  - discriminate.
  - left. now exists w0.
  - exists gs. repeat split; auto. unfold wrapWords.
    change (joinSp [w0]) with w0 in Hl.
    destruct (fold_left (wrapStep width) rest ([], w0)). exact Hl.
Qed.

(** Words that fit on one line together stay on one line. *)
Lemma wrap_fold_single width : forall rest lines g,
  g <> [] ->
  Utf8.RuneCountInString (joinSp (g ++ rest)) <= width ->
  fold_left (wrapStep width) rest (lines, joinSp g) = (lines, joinSp (g ++ rest)).
Proof.
  induction rest as [|w rest IH]; intros lines g Hg Hw.
  - now rewrite app_nil_r.
  - cbn [fold_left wrapStep].
    assert (Hle : Utf8.RuneCountInString (joinSp g) + 1 + Utf8.RuneCountInString w
                  <= width).
    { rewrite <- RuneCount_space, <- joinSp_snoc by assumption.
      destruct rest as [|v rest].
      - exact Hw.
      - change (g ++ w :: v :: rest)%list with (g ++ [w] ++ (v :: rest))%list in Hw.
        rewrite app_assoc, joinSp_app in Hw; try discriminate.
        + rewrite RuneCount_space in Hw.
          pose proof (RuneCount_nonneg (joinSp (v :: rest))). lia.
        + destruct g; discriminate. }
    destruct (Z.gtb_spec (Utf8.RuneCountInString (joinSp g) + 1
                          + Utf8.RuneCountInString w) width) as [Hgt|_]; [lia|].
    rewrite <- joinSp_snoc by assumption.
    rewrite IH.
    + now rewrite <- app_assoc.
    + destruct g; discriminate.
    + now rewrite <- app_assoc.
Qed.

Lemma wrapWords_single words width :
  Utf8.RuneCountInString (joinSp words) <= width ->
  wrapWords words width = [joinSp words].
Proof.
  destruct words as [|w0 rest]; intros H; [reflexivity|].
  unfold wrapWords. change w0 with (joinSp [w0]) at 1.
  rewrite wrap_fold_single; [reflexivity | discriminate | exact H].
Qed.

(** ** strings.Fields and the rune count *)


Lemma weight_app a b : weight (a ++ b) = (weight a + weight b)%nat.
Proof. induction a as [|x a IH]; simpl; [reflexivity | rewrite IH; lia]. Qed.

Lemma space_starts_rune c t :
  Unicode.IsSpace (fst (Utf8.DecodeRuneInString (String c t))) = true ->
  isCont c = false.
Proof.
  unfold isCont. cbn [Utf8.DecodeRuneInString].
  destruct (Z.ltb_spec (byteVal c) 128) as [Hlt|Hge].
  - intros _. apply andb_false_iff. left. apply Z.leb_gt. exact Hlt.
  - destruct (Utf8.leadInfo (byteVal c)) as [[sz [lo hi]]|] eqn:E.
    + apply leadInfo_range in E. intros _.
      apply andb_false_iff. right. apply Z.leb_gt. lia.
    + cbn. discriminate.
Qed.

Lemma fields_weight s : forall skip,
  (weight (Strings.fieldsFrom skip None s) <= Utf8.countFrom skip s + 1)%nat
  /\ forall w,
       (weight (Strings.fieldsFrom skip (Some w) s)
        <= Utf8.countFrom 0 (w ++ s) + 1)%nat.
Proof.
  induction s as [|c t IH]; intros skip.
  - split; [simpl; lia|]. intros w. simpl. rewrite append_nil_r. lia.
  - destruct skip as [|k].
    + cbn [Strings.fieldsFrom Utf8.countFrom].
      destruct (Utf8.DecodeRuneInString (String c t)) as [r sz] eqn:E.
      cbn [snd].
      destruct (Unicode.IsSpace r) eqn:Esp.
      * destruct (IH (sz - 1)%nat) as [IHn _].
        split; [simpl; lia|]. intros w.
        rewrite weight_app. cbn [Strings.closeField weight fold_right].
        rewrite (countFrom_sync w 0 (String c t)); [|lia|].
        -- cbn [Utf8.countFrom]. rewrite E. cbn [snd]. lia.
        -- simpl. apply (space_starts_rune c t). now rewrite E.
      * destruct (IH (sz - 1)%nat) as [_ IHs].
        split.
        -- cbn [Strings.extend]. specialize (IHs (String c EmptyString)).
           change (String c EmptyString ++ t) with (String c t) in IHs.
           cbn [Utf8.countFrom] in IHs. rewrite E in IHs. exact IHs.
        -- intros w. cbn [Strings.extend]. specialize (IHs (w ++ String c EmptyString)).
           rewrite append_assoc in IHs. exact IHs.
    + cbn [Strings.fieldsFrom Utf8.countFrom option_map].
      destruct (IH k) as [IHn IHs]. split; [exact IHn|].
      intros w. specialize (IHs (w ++ String c EmptyString)).
      rewrite append_assoc in IHs. exact IHs.
Qed.

Lemma weight_joinSp fs :
  fs <> [] -> (Utf8.countFrom 0 (joinSp fs) + 1 = weight fs)%nat.
Proof.
  induction fs as [|f fs IH]; [congruence|]. intros _.
  destruct fs as [|g fs].
  - change (joinSp [f]) with f. unfold weight. cbn [fold_right]. lia.
  - rewrite joinSp_cons by discriminate.
    pose proof (RuneCount_space f (joinSp (g :: fs))) as H.
    unfold Utf8.RuneCountInString in H.
    specialize (IH ltac:(discriminate)).
    change (weight (f :: g :: fs))
      with (Utf8.countFrom 0 f + 1 + weight (g :: fs))%nat.
    lia.
Qed.

(** Joining the fields of a string by single spaces never adds runes. *)
Lemma RuneCount_joinSp_Fields s :
  Utf8.RuneCountInString (joinSp (Strings.Fields s)) <= Utf8.RuneCountInString s.
Proof.
  unfold Utf8.RuneCountInString, Strings.Fields.
  destruct (Strings.fieldsFrom 0 None s) as [|f fs] eqn:E.
  - simpl. lia.
  - pose proof (proj1 (fields_weight s 0%nat)) as H. rewrite E in H.
    pose proof (weight_joinSp (f :: fs) ltac:(discriminate)). lia.
Qed.

(** ** severityColor *)

(** The thresholds and the sample scores are binary64 values. *)
Example thresholds_binary64 :
  forallb (valid_binary 53 1024) [nine; seven; four; f8_99; f6_99; f3_99] = true.
Proof. reflexivity. Qed.

Lemma SFcompare_antisym a b :
  SFcompare b a = option_map CompOpp (SFcompare a b).
Proof.
  destruct a as [sa|sa| |sa ma ea], b as [sb|sb| |sb mb eb]; simpl;
    try reflexivity;
    try (destruct sa; reflexivity); try (destruct sb; reflexivity);
    try (destruct sa, sb; reflexivity).
  change (PosDef.Pos.compare_cont Eq mb ma) with (Pos.compare mb ma).
  change (PosDef.Pos.compare_cont Eq ma mb) with (Pos.compare ma mb).
  rewrite (Z.compare_antisym ea eb), (Pos.compare_antisym ma mb).
  destruct sa, sb, (ea ?= eb), (ma ?= mb)%positive; reflexivity.
Qed.

Lemma lt_not_ge a b : SFltb a b = true -> fge a b = false.
Proof.
  unfold SFltb, fge, SFleb. rewrite (SFcompare_antisym a b).
  destruct (SFcompare a b) as [[| |]|]; simpl; congruence.
Qed.

Lemma SFcompare_numbers a b :
  a <> S754_nan -> b <> S754_nan -> SFcompare a b <> None.
Proof.
  destruct a, b; simpl; congruence.
Qed.

(** Two numbers are always comparable. *)
Lemma ge_or_lt a b :
  a <> S754_nan -> b <> S754_nan -> fge a b = true \/ SFltb a b = true.
Proof.
  intros Ha Hb. pose proof (SFcompare_numbers a b Ha Hb) as H.
  unfold SFltb, fge, SFleb. rewrite (SFcompare_antisym a b).
  destruct (SFcompare a b) as [[| |]|]; simpl; auto; congruence.
Qed.

(** [score >= c] for a positive constant [c], read on the representation. *)
Lemma fge_finite score m0 e0 :
  fge score (S754_finite false m0 e0) = true <->
  match score with
  | S754_infinity false => True
  | S754_finite false m e => e0 < e \/ (e0 = e /\ (m0 <= m)%positive)
  | _ => False
  end.
Proof.
  unfold fge, SFleb, SFcompare.
  destruct score as [s|s| |s m e].
  - split; [discriminate | tauto].
  - destruct s; split; try discriminate; tauto.
  - split; [discriminate | tauto].
  - destruct s; [split; [discriminate | tauto]|].
    change (PosDef.Pos.compare_cont Eq m0 m) with (Pos.compare m0 m).
    destruct (Z.compare_spec e0 e), (Pos.compare_spec m0 m);
      split; intros Hc; try reflexivity; try discriminate; lia.
Qed.

Lemma ge_nine_seven score : fge score nine = true -> fge score seven = true.
Proof.
  unfold nine, seven. rewrite !fge_finite.
  destruct score as [s|s| |s m e]; auto. destruct s; auto. lia.
Qed.

Lemma ge_seven_four score : fge score seven = true -> fge score four = true.
Proof.
  unfold seven, four. rewrite !fge_finite.
  destruct score as [s|s| |s m e]; auto. destruct s; auto. lia.
Qed.

(** The tiers of the classifier, with the emphasis each one is shown in. *)
Lemma severityColor_cases score :
  (fge score nine = true -> severityColor score = emphasis Critical)
  /\ (fge score seven = true -> SFltb score nine = true ->
      severityColor score = emphasis High)
  /\ (fge score four = true -> SFltb score seven = true ->
      severityColor score = emphasis Medium)
  /\ (SFltb score four = true -> severityColor score = emphasis Low).
Proof.
  unfold severityColor. repeat split.
  - intros ->. reflexivity.
  - intros H7 H9. apply lt_not_ge in H9. now rewrite H9, H7.
  - intros H4 H7. apply lt_not_ge in H7.
    assert (H9 : fge score nine = false).
    { destruct (fge score nine) eqn:E; [|reflexivity].
      apply ge_nine_seven in E. congruence. }
    now rewrite H9, H7, H4.
  - intros H4. apply lt_not_ge in H4.
    assert (H7 : fge score seven = false).
    { destruct (fge score seven) eqn:E; [|reflexivity].
      apply ge_seven_four in E. congruence. }
    assert (H9 : fge score nine = false).
    { destruct (fge score nine) eqn:E; [|reflexivity].
      apply ge_nine_seven in E. congruence. }
    now rewrite H9, H7, H4.
Qed.

(** ** extractUpgradeSuggestion *)

Lemma suggestFrom_cons out lower p rest :
  suggestFrom out lower (p :: rest)
  = match tokenAfter lower p with
    | Some tok => out ++ tok
    | None => suggestFrom out lower rest
    end.
Proof.
  unfold tokenAfter. cbn [suggestFrom].
  destruct (Strings.Index lower p) as [idx|]; [|reflexivity].
  destruct (Strings.Fields (sliceFrom lower (idx + String.length p)));
    reflexivity.
Qed.

Lemma suggestFrom_first out lower : forall pre p post tok,
  (forall q, In q pre -> tokenAfter lower q = None) ->
  tokenAfter lower p = Some tok ->
  suggestFrom out lower (pre ++ p :: post) = out ++ tok.
Proof.
  induction pre as [|q pre IH]; intros p post tok Hpre Hp.
  - cbn [app]. now rewrite suggestFrom_cons, Hp.
  - cbn [app]. rewrite suggestFrom_cons, (Hpre q) by (now left).
    apply IH; auto. intros q' Hq'. apply Hpre. now right.
Qed.

Lemma suggestFrom_none out lower : forall ps,
  (forall q, In q ps -> tokenAfter lower q = None) ->
  suggestFrom out lower ps = EmptyString.
Proof.
  induction ps as [|q ps IH]; intros H; [reflexivity|].
  rewrite suggestFrom_cons, (H q) by (now left).
  apply IH. intros q' Hq'. apply H. now right.
Qed.

(** ** The report *)

Lemma renderedDescription_some v :
  exists r, renderedDescription v = Some r.
Proof.
  unfold renderedDescription.
  destruct (truncate_within (Description v) (width 3)) as (r & H & _).
  - unfold width. simpl. lia.
  - now exists r.
Qed.

Section Report.
Variable ToLower : string -> string.
Variable fmtFloat1 : spec_float -> string.

Lemma vulnRows_some v : exists rows, vulnRows ToLower fmtFloat1 v = Some rows.
Proof.
  unfold vulnRows. destruct (renderedDescription_some v) as [r ->].
  destruct (wrapText r (width 3)); eauto.
Qed.

Lemma tableRows_some vulns : exists rows, tableRows ToLower fmtFloat1 vulns = Some rows.
Proof.
  induction vulns as [|v vulns [rows IH]]; [now exists []|].
  cbn [tableRows]. destruct (vulnRows_some v) as [r ->]. rewrite IH. eauto.
Qed.

Lemma printVulnTable_some dep vulns :
  exists t, printVulnTable ToLower fmtFloat1 dep vulns = Some t.
Proof.
  unfold printVulnTable. destruct (tableRows_some vulns) as [rows ->]. eauto.
Qed.

Lemma vulnCount_nonneg r : 0 <= vulnCount r.
Proof. unfold vulnCount. lia. Qed.

Lemma totalVulnerabilities_nonneg results : 0 <= totalVulnerabilities results.
Proof.
  induction results as [|r results IH]; simpl; [lia|].
  pose proof (vulnCount_nonneg r). lia.
Qed.

Lemma affected_cons r results :
  affected (r :: results)
  = (if 0 <? vulnCount r then 1 else 0) + affected results.
Proof.
  unfold affected. cbn [filter].
  destruct (0 <? vulnCount r); cbn [List.length]; lia.
Qed.

Lemma onlyOut_app a b : onlyOut a -> onlyOut b -> onlyOut (a ++ b).
Proof. unfold onlyOut. intros Ha Hb. apply Forall_app. auto. Qed.

Lemma onlyOut_cons s t : onlyOut t -> onlyOut (Out s :: t).
Proof. intros H. constructor; eauto. Qed.

Lemma tableCells_out sep mid : forall ws, onlyOut (tableCells sep mid ws).
Proof.
  induction ws as [|w ws IH]; [constructor|].
  cbn [tableCells]. repeat apply onlyOut_app; auto.
  - unfold onlyOut. apply Forall_forall. intros e He.
    apply repeat_spec in He. subst. eauto.
  - destruct ws; [constructor | apply onlyOut_cons; constructor].
Qed.

Lemma printTableLine_out kind ws : onlyOut (printTableLine kind ws).
Proof.
  unfold printTableLine.
  destruct (tableLineParts kind) as [[[lft sep] mid] rgt].
  apply onlyOut_cons, onlyOut_app; [apply tableCells_out|].
  apply onlyOut_cons. constructor.
Qed.

Lemma vulnRows_out v rows :
  vulnRows ToLower fmtFloat1 v = Some rows -> onlyOut rows.
Proof.
  unfold vulnRows. destruct (renderedDescription v) as [r|]; [|discriminate].
  destruct (wrapText r (width 3)) as [|dl more]; intros H; injection H as <-.
  - constructor.
  - unfold firstRow. apply onlyOut_cons.
    unfold onlyOut. apply Forall_forall. intros e He.
    apply in_map_iff in He. destruct He as (x & <- & _). unfold nextRow. eauto.
Qed.

Lemma tableRows_out : forall vulns rows,
  tableRows ToLower fmtFloat1 vulns = Some rows -> onlyOut rows.
Proof.
  induction vulns as [|v vulns IH]; intros rows H; cbn [tableRows] in H.
  - injection H as <-. constructor.
  - destruct (vulnRows ToLower fmtFloat1 v) as [r|] eqn:Ev; [|discriminate].
    destruct (tableRows ToLower fmtFloat1 vulns) as [more|]; [|discriminate].
    injection H as <-.
    apply onlyOut_app; [now apply (vulnRows_out v)|].
    apply onlyOut_app; [|now apply IH].
    destruct vulns; [constructor | apply printTableLine_out].
Qed.

Lemma printVulnTable_out dep vulns t :
  printVulnTable ToLower fmtFloat1 dep vulns = Some t -> onlyOut t.
Proof.
  unfold printVulnTable.
  destruct (tableRows ToLower fmtFloat1 vulns) as [rows|] eqn:E; [|discriminate].
  intros H. apply tableRows_out in E.
  match type of H with
  | Some ?l = _ => assert (Hl : onlyOut l)
  end.
  { apply onlyOut_app; [apply onlyOut_cons; constructor|].
    apply onlyOut_app; [apply printTableLine_out|].
    apply onlyOut_app; [apply onlyOut_cons; constructor|].
    apply onlyOut_app; [apply printTableLine_out|].
    apply onlyOut_app; [exact E | apply printTableLine_out]. }
  injection H as Ht. rewrite <- Ht. exact Hl.
Qed.

(** The loop over the results counts the affected reports and their
    vulnerabilities, and prints a table only for an affected report. *)
Lemma report_loop : forall results d n out,
  exists tables,
    fold_left (reportStep ToLower fmtFloat1) results (Some (d, n, out))
    = Some (d + affected results, n + totalVulnerabilities results,
            (out ++ tables)%list)
    /\ (totalVulnerabilities results = 0 -> tables = [])
    /\ onlyOut tables.
Proof.
  induction results as [|r results IH]; intros d n out.
  - exists []. cbn. rewrite app_nil_r, !Z.add_0_r. repeat split; auto.
    constructor.
  - cbn [fold_left reportStep]. rewrite affected_cons.
    cbn [totalVulnerabilities fold_right].
    fold (totalVulnerabilities results). fold (vulnCount r).
    pose proof (vulnCount_nonneg r) as Hr.
    pose proof (totalVulnerabilities_nonneg results) as Ht.
    destruct (Z.ltb_spec 0 (vulnCount r)) as [Hpos|Hzero].
    + destruct (printVulnTable_some (Coordinates r) (Vulnerabilities r))
        as [t Et].
      rewrite Et.
      destruct (IH (d + 1) (n + vulnCount r) (out ++ t)%list)
        as (tables & E & _ & Ho).
      exists (t ++ tables)%list. rewrite E. split; [|split; [lia|]].
      * f_equal. f_equal; [f_equal; lia|]. now rewrite app_assoc.
      * apply onlyOut_app; [now apply printVulnTable_out in Et | exact Ho].
    + destruct (IH d n out) as (tables & E & Hz & Ho).
      exists tables. rewrite E. split; [|split; [intros; apply Hz; lia | exact Ho]].
      f_equal. f_equal. f_equal; lia.
Qed.

Lemma report_out results : onlyOut (report ToLower fmtFloat1 results).
Proof.
  unfold report.
  destruct (report_loop results 0 0 []) as (tables & E & _ & Ho).
  rewrite E. cbn [app].
  destruct (0 + totalVulnerabilities results =? 0);
    (apply onlyOut_app; [exact Ho | apply onlyOut_cons; constructor]).
Qed.

(** A request always carries at least one coordinate. *)
Lemma post_has_coordinates env args url coords :
  In (Post url coords) (main ToLower fmtFloat1 env args) -> coords <> [].
Proof.
  assert (A : forall lang parsed,
             In (Post url coords) (afterParse ToLower fmtFloat1 env lang parsed) ->
             coords <> []).
  { intros lang [cs|e]; cbn [afterParse].
    - destruct (Z.eqb_spec (Z.of_nat (List.length cs)) 0) as [Hz|Hnz].
      + intros [H|[H|[]]]; discriminate.
      + intros [H|[H|H]]; [discriminate | |].
        * injection H as _ <-. intros ->. apply Hnz. reflexivity.
        * exfalso. destruct (checkVulnerabilities env cs) as [results|e].
          -- pose proof (report_out results) as Ho.
             unfold onlyOut in Ho. rewrite Forall_forall in Ho.
             destruct (Ho _ H) as [s Hs]. discriminate.
          -- destruct H as [H|[H|[]]]; discriminate.
    - intros [H|[H|[]]]; discriminate. }
  unfold main.
  destruct args as [|prog [|lang [|path [|extra args]]]];
    try (intros [H|[H|[]]]; discriminate).
  destruct (String.eqb lang "go"); [|destruct (String.eqb lang "java")].
  - intros [H|H]; [discriminate | now apply A in H].
  - intros [H|H]; [discriminate | now apply A in H].
  - intros [H|[H|[]]]; discriminate.
Qed.

End Report.

(** ** parseGoMod *)

(** The pattern is anchored: it matches at offset 0 or not at all. *)
Lemma findFrom_anchored s : forall start,
  (0 < start)%nat -> Regexp.findFrom depPattern start s = None.
Proof.
  induction s as [|c s IH]; intros [|n] H; try lia; cbn [Regexp.findFrom].
  - reflexivity.
  - replace (Regexp.run depPattern _ (S n) (String c s) []) with (@None Regexp.caps)
      by reflexivity.
    apply IH. lia.
Qed.

Local Arguments Regexp.space : simpl nomatch.
Local Arguments Ascii.eqb : simpl nomatch.

(** After [require] and a blank the pattern wants the [v] of a version: a
    line that goes on with a module path is not matched. *)
Lemma single_require_no_match c0 rest :
  Regexp.space c0 = false -> Ascii.eqb "v" c0 = false ->
  Regexp.FindStringSubmatch depPattern 2 ("require " ++ String c0 rest) = None.
Proof.
  intros Hsp Hv. unfold Regexp.FindStringSubmatch.
  cbn [append Regexp.findFrom].
  rewrite findFrom_anchored by lia.
  unfold depPattern. cbn.
  rewrite ?Hsp, ?Hv. cbn. reflexivity.
Qed.

Lemma FindStringSubmatch_shape r s :
  Regexp.FindStringSubmatch r 2 s = None
  \/ exists m0 m1 m2, Regexp.FindStringSubmatch r 2 s = Some [m0; m1; m2].
Proof.
  unfold Regexp.FindStringSubmatch.
  destruct (Regexp.findFrom r 0 s) as [c|]; [right | now left].
  cbn [seq map]. eauto.
Qed.

(** A line that is looked at and matches adds exactly its coordinate. *)
Lemma goModStep_match inBlock coords line m0 m1 m2 :
  Strings.HasPrefix line "require (" = false ->
  inBlock && Strings.HasPrefix line ")" = false ->
  inBlock || Strings.HasPrefix line "require" = true ->
  Regexp.FindStringSubmatch depPattern 2 line = Some [m0; m1; m2] ->
  goModStep (inBlock, coords) line
  = (inBlock, (coords ++ [("pkg:golang/" ++ m1 ++ "@v" ++ m2)%string])%list).
Proof.
  intros H1 H2 H3 H4. unfold goModStep. now rewrite H1, H2, H3, H4.
Qed.

(** A line that does not match adds nothing and changes nothing. *)
Lemma goModStep_no_match inBlock coords line :
  Strings.HasPrefix line "require (" = false ->
  inBlock && Strings.HasPrefix line ")" = false ->
  Regexp.FindStringSubmatch depPattern 2 line = None ->
  goModStep (inBlock, coords) line = (inBlock, coords).
Proof.
  intros H1 H2 H4. unfold goModStep. rewrite H1, H2, H4.
  now destruct (inBlock || Strings.HasPrefix line "require").
Qed.

(** Every line adds at most one coordinate. *)
Lemma goModStep_at_most_one st line :
  exists added,
    snd (goModStep st line) = (snd st ++ added)%list /\ (List.length added <= 1)%nat.
Proof.
  destruct st as [inBlock coords]. unfold goModStep.
  destruct (Strings.HasPrefix line "require (");
    [exists []; simpl; rewrite app_nil_r; auto|].
  destruct (inBlock && Strings.HasPrefix line ")");
    [exists []; simpl; rewrite app_nil_r; auto|].
  destruct (inBlock || Strings.HasPrefix line "require");
    [|exists []; simpl; rewrite app_nil_r; auto].
  destruct (FindStringSubmatch_shape depPattern line) as [->|(m0 & m1 & m2 & ->)].
  - exists []. simpl. rewrite app_nil_r. auto.
  - eexists [_]. simpl. auto.
Qed.

(** The content of the file never makes the parser fail. *)
Lemma parseGoMod_error open path e :
  parseGoMod open path = Err e <-> open path = Err e.
Proof.
  unfold parseGoMod. destruct (open path); split; congruence.
Qed.

(** * The statements of the specification *)

(** C1. A single-entry requirement line, [require <module> v<version>], is
    looked at by the parser (it has the prefix [require]) but the pattern,
    anchored at the start of the line, takes [require] itself for the module
    path: unless the module path begins with [v] the line adds no coordinate,
    inside a block or outside. *)
Theorem single_entry_requirement_dropped
  (inBlock : bool) (coords : list string) (c0 : ascii) (rest : string) :
  Regexp.space c0 = false ->
  c0 <> "v"%char ->
  c0 <> "("%char ->
  goModStep (inBlock, coords) ("require " ++ String c0 rest) = (inBlock, coords).
Proof.
  intros Hsp Hv Hpar. apply goModStep_no_match.
  - unfold Strings.HasPrefix.
    destruct (prefix "require (" ("require " ++ String c0 rest)) eqn:E;
      [|reflexivity].
    apply prefix_correct in E. cbn in E. congruence.
  - unfold Strings.HasPrefix. cbn. apply andb_false_r.
  - apply single_require_no_match; [exact Hsp|].
    apply Ascii.eqb_neq. congruence.
Qed.

Lemma single_entry_requirement_dropped_witness :
  Regexp.space "g" = false
  /\ "g"%char <> "v"%char
  /\ "g"%char <> "("%char
  /\ goModStep (false, []) "require github.com/pkg/errors v0.9.1" = (false, []).
Proof.
  split; [reflexivity|]. split; [discriminate|]. split; [discriminate|].
  apply (single_entry_requirement_dropped false [] "g" "ithub.com/pkg/errors v0.9.1");
    [reflexivity | discriminate | discriminate].
Defined.

(** A manifest whose only requirement is a single-entry line yields no
    coordinate at all; the same requirement in a block is found. *)
Example single_entry_manifest :
  goModCoords ("module example.com/m" ++ NL ++ NL ++ "go 1.21" ++ NL ++ NL
               ++ "require github.com/pkg/errors v0.9.1" ++ NL) = []
  /\ goModCoords ("module example.com/m" ++ NL ++ NL ++ "require (" ++ NL
                  ++ "    github.com/pkg/errors v0.9.1" ++ NL ++ ")" ++ NL)
     = ["pkg:golang/github.com/pkg/errors@v0.9.1"].
Proof. split; vm_compute; reflexivity. Qed.

(** When the module path does begin with [v] the line matches, with
    [require] as the module and the start of the path as the version. *)
Example single_entry_v_module :
  goModCoords ("require vitess.io/vitess v0.19.1" ++ NL)
  = ["pkg:golang/require@vitess.io"].
Proof. vm_compute. reflexivity. Qed.

(** C2, as stated, fails: on the description of the specification's own
    example [main.go] answers "Upgrade to 2.3.1"; and a phrase that occurs
    with no token after it does not end the search, in either renderer. *)
Lemma upgrade_hint_counterexample :
  extractUpgradeSuggestion Strings.ToLowerASCII "was fixed in 2.3.1 after a report"
    <> "Upgrade to version 2.3.1"
  /\ claimedSuggestion
       (Strings.ToLowerASCII "Use version 2.0 or upgrade to version ") = None
  /\ extractUpgradeSuggestion Strings.ToLowerASCII
       "Use version 2.0 or upgrade to version " = "Upgrade to 2.0"
  /\ Box.extractUpgradeSuggestion Strings.ToLowerASCII
       "Use version 2.0 or upgrade to version " = "Upgrade to version version".
Proof.
  split; [vm_compute; discriminate|].
  repeat split; vm_compute; reflexivity.
Qed.

(** C2, amended. The lowercased description is searched for the phrases in
    list order; the answer comes from the first phrase whose first
    occurrence has a token after it, a phrase without one being passed
    over; with no such phrase the result is empty and the row shows the
    reference hyperlink.  [main.go] has four phrases and answers
    "Upgrade to <token>", the box renderer has five and answers
    "Upgrade to version <token>". *)
Theorem upgrade_hint_first_token (ToLower : string -> string) (desc : string) :
  (forall pre p post tok,
      phrases = (pre ++ p :: post)%list ->
      (forall q, In q pre -> tokenAfter (ToLower desc) q = None) ->
      tokenAfter (ToLower desc) p = Some tok ->
      extractUpgradeSuggestion ToLower desc = "Upgrade to " ++ tok)
  /\ ((forall q, In q phrases -> tokenAfter (ToLower desc) q = None) ->
      extractUpgradeSuggestion ToLower desc = EmptyString)
  /\ (forall pre p post tok,
      Box.phrases = (pre ++ p :: post)%list ->
      (forall q, In q pre -> tokenAfter (ToLower desc) q = None) ->
      tokenAfter (ToLower desc) p = Some tok ->
      Box.extractUpgradeSuggestion ToLower desc = "Upgrade to version " ++ tok)
  /\ ((forall q, In q Box.phrases -> tokenAfter (ToLower desc) q = None) ->
      Box.extractUpgradeSuggestion ToLower desc = EmptyString)
  /\ (forall v,
      extractUpgradeSuggestion ToLower (Description v) = EmptyString ->
      suggestedFix ToLower v = hyperlink "Check reference URL" (Reference v)).
Proof.
  unfold extractUpgradeSuggestion, Box.extractUpgradeSuggestion.
  repeat split.
  - intros pre p post tok -> Hpre Hp. now apply suggestFrom_first.
  - apply suggestFrom_none.
  - intros pre p post tok -> Hpre Hp. now apply suggestFrom_first.
  - apply suggestFrom_none.
  - intros v H. unfold suggestedFix, extractUpgradeSuggestion. now rewrite H.
Qed.

Lemma upgrade_hint_first_token_witness :
  phrases = (["upgrade to version "] ++ "fixed in "
             :: ["update to version "; "use version "])%list
  /\ (forall q, In q ["upgrade to version "] ->
        tokenAfter (Strings.ToLowerASCII "was Fixed in 2.3.1 after a report") q = None)
  /\ tokenAfter (Strings.ToLowerASCII "was Fixed in 2.3.1 after a report") "fixed in "
     = Some "2.3.1"
  /\ extractUpgradeSuggestion Strings.ToLowerASCII "was Fixed in 2.3.1 after a report"
     = "Upgrade to 2.3.1".
Proof.
  assert (Hpre : forall q, In q ["upgrade to version "] ->
            tokenAfter (Strings.ToLowerASCII "was Fixed in 2.3.1 after a report") q
            = None).
  { intros q [<-|[]]. reflexivity. }
  split; [reflexivity|]. split; [exact Hpre|]. split; [reflexivity|].
  exact (proj1 (upgrade_hint_first_token Strings.ToLowerASCII
                  "was Fixed in 2.3.1 after a report")
           ["upgrade to version "] "fixed in "
           ["update to version "; "use version "] "2.3.1"
           eq_refl Hpre eq_refl).
Defined.

(** C3. A score of at least 9.0 is critical, from 7.0 up to 9.0 high, from
    4.0 up to 7.0 medium, below 4.0 low, each lower bound included and every
    number in exactly one tier; the colour returned is the emphasis of the
    tier.  9.0 is critical, 8.99 high, 6.99 medium and 3.99 low. *)
Theorem severity_classification (score : spec_float) :
  (fge score nine = true -> severityColor score = emphasis Critical)
  /\ (fge score seven = true -> SFltb score nine = true ->
      severityColor score = emphasis High)
  /\ (fge score four = true -> SFltb score seven = true ->
      severityColor score = emphasis Medium)
  /\ (SFltb score four = true -> severityColor score = emphasis Low)
  /\ (score <> S754_nan ->
      fge score nine = true
      \/ (fge score seven = true /\ SFltb score nine = true)
      \/ (fge score four = true /\ SFltb score seven = true)
      \/ SFltb score four = true)
  /\ severityColor nine = emphasis Critical
  /\ severityColor f8_99 = emphasis High
  /\ severityColor seven = emphasis High
  /\ severityColor f6_99 = emphasis Medium
  /\ severityColor four = emphasis Medium
  /\ severityColor f3_99 = emphasis Low.
Proof.
  destruct (severityColor_cases score) as (H9 & H7 & H4 & H0).
  repeat split; auto.
  intros Hn.
  destruct (ge_or_lt score nine Hn ltac:(discriminate)) as [G9|L9]; [now left|].
  destruct (ge_or_lt score seven Hn ltac:(discriminate)) as [G7|L7];
    [right; left; auto|].
  destruct (ge_or_lt score four Hn ltac:(discriminate)) as [G4|L4];
    [right; right; left; auto | right; right; right; auto].
Qed.

Lemma severity_classification_witness :
  (fge f8_99 seven = true /\ SFltb f8_99 nine = true)
  /\ severityColor f8_99 = ColorRed.
Proof.
  split; [split; reflexivity|].
  exact (proj1 (proj2 (severity_classification f8_99)) eq_refl eq_refl).
Defined.

Lemma RuneCount_word_le_join w : forall g,
  In w g -> Utf8.RuneCountInString w <= Utf8.RuneCountInString (joinSp g).
Proof.
  induction g as [|x g IH]; intros Hin; [contradiction|].
  destruct g as [|y g].
  - destruct Hin as [->|[]]. change (joinSp [w]) with w. lia.
  - rewrite joinSp_cons by discriminate. rewrite RuneCount_space.
    pose proof (RuneCount_nonneg x).
    pose proof (RuneCount_nonneg (joinSp (y :: g))).
    destruct Hin as [->|Hin]; [lia|]. specialize (IH Hin). lia.
Qed.

(** C4. The lines of [wrapText] are the space-joined groups of a partition
    of the words of the text into runs of consecutive words, in order; each
    group is a single word or has a rune count within the width.  So every
    line is a word of the text or a space-joined run of consecutive words
    whose rune count does not exceed the width, and a word longer than the
    width is a line of its own.  (A text without words gives the single
    empty line.) *)
Theorem wrapText_lines (s : string) (width : Z) :
  (Strings.Fields s = [] /\ wrapText s width = [EmptyString])
  \/ exists gs,
       concat gs = Strings.Fields s
       /\ Forall (fun g => g <> []) gs
       /\ Forall (fits width) gs
       /\ wrapText s width = map joinSp gs
       /\ (forall l, In l (wrapText s width) ->
             In l (Strings.Fields s)
             \/ exists before run after,
                  Strings.Fields s = (before ++ run ++ after)%list
                  /\ l = joinSp run
                  /\ Utf8.RuneCountInString l <= width)
       /\ (forall w, In w (Strings.Fields s) ->
             width < Utf8.RuneCountInString w -> In w (wrapText s width)).
Proof.
  unfold wrapText.
  destruct (wrapWords_partition (Strings.Fields s) width)
    as [H|(gs & Hc & Hne & Hf & Hl)]; [now left | right].
  exists gs. rewrite Hl, <- Hc. rewrite Forall_forall in Hf.
  repeat split; auto.
  - now apply Forall_forall.
  - intros l Hin. apply in_map_iff in Hin. destruct Hin as (g & <- & Hg).
    destruct (Hf g Hg) as [[w ->]|Hfit].
    + left. apply in_concat. exists [w]. split; [exact Hg | now left].
    + right. apply in_split in Hg. destruct Hg as (g1 & g2 & ->).
      exists (concat g1), g, (concat g2). repeat split; auto.
      now rewrite concat_app.
  - intros w Hin Hlong.
    apply in_concat in Hin. destruct Hin as (g & Hg & Hw).
    apply in_map_iff. exists g. split; [|exact Hg].
    destruct (Hf g Hg) as [[w' ->]|Hfit].
    + destruct Hw as [->|[]]. reflexivity.
    + pose proof (RuneCount_word_le_join w g Hw). lia.
Qed.

(** C5, as stated, fails: a short string with two blanks between its words
    comes back with one. *)
Lemma wrapText_short_counterexample :
  Utf8.RuneCountInString "a  b" < 10 /\ wrapText "a  b" 10 <> ["a  b"].
Proof. split; [reflexivity | vm_compute; discriminate]. Qed.

(** C5, amended. A string whose rune count does not exceed the width is
    wrapped into one line: its words joined by single spaces, which is the
    string itself when it is written that way; the result depends on the
    arguments alone. *)
Theorem wrapText_short_single_line (s : string) (width : Z) :
  Utf8.RuneCountInString s <= width ->
  wrapText s width = [joinSp (Strings.Fields s)]
  /\ (joinSp (Strings.Fields s) = s -> wrapText s width = [s])
  /\ (forall s' width', s' = s -> width' = width ->
        wrapText s' width' = wrapText s width).
Proof.
  intros H.
  assert (E : wrapText s width = [joinSp (Strings.Fields s)]).
  { unfold wrapText. apply wrapWords_single.
    pose proof (RuneCount_joinSp_Fields s). lia. }
  split; [exact E|]. split.
  - intros Hs. now rewrite E, Hs.
  - intros s' width' -> ->. reflexivity.
Qed.

Lemma wrapText_short_single_line_witness :
  Utf8.RuneCountInString "  fixed   in 2.3.1 " <= 40
  /\ wrapText "  fixed   in 2.3.1 " 40 = ["fixed in 2.3.1"].
Proof.
  split; [vm_compute; discriminate|].
  exact (proj1 (wrapText_short_single_line "  fixed   in 2.3.1 " 40
                  ltac:(vm_compute; discriminate))).
Defined.

(** C6. When the parser returns without error and without a coordinate,
    the run prints "No dependencies found." after opening the manifest, does
    not call the lookup service and ends with status 0; and in no run at all
    is a request sent with an empty list of coordinates. *)
Theorem no_dependencies_short_circuit
  (ToLower : string -> string) (fmtFloat1 : spec_float -> string)
  (env : Env) (args : list string) :
  parserResult env args = Some (Ok []) ->
  stdout (main ToLower fmtFloat1 env args) = "No dependencies found." ++ NL
  /\ existsb isPost (main ToLower fmtFloat1 env args) = false
  /\ exitStatus (main ToLower fmtFloat1 env args) = Some 0
  /\ (forall args' url coords,
        In (Post url coords) (main ToLower fmtFloat1 env args') -> coords <> []).
Proof.
  intros H.
  assert (E : exists p,
             main ToLower fmtFloat1 env args
             = [Read p; Out ("No dependencies found." ++ NL); Exit 0]).
  { revert H. unfold parserResult, main.
    destruct args as [|prog [|lang [|path [|extra args]]]]; try discriminate.
    destruct (String.eqb lang "go").
    - intros H. injection H as ->. cbn. eauto.
    - destruct (String.eqb lang "java"); [|discriminate].
      intros H. injection H as ->. cbn. eauto. }
  destruct E as [p ->]. repeat split.
  intros args' url coords. apply post_has_coordinates.
Qed.

Lemma no_dependencies_short_circuit_witness :
  parserResult (sampleEnv ("module example.com/m" ++ NL) [] [])
    ["vulnscanner"; "go"; "/src/m"] = Some (Ok [])
  /\ stdout (main Strings.ToLowerASCII sampleFmt
               (sampleEnv ("module example.com/m" ++ NL) [] [])
               ["vulnscanner"; "go"; "/src/m"])
     = "No dependencies found." ++ NL.
Proof.
  split; [reflexivity|].
  exact (proj1 (no_dependencies_short_circuit Strings.ToLowerASCII sampleFmt
                  (sampleEnv ("module example.com/m" ++ NL) [] [])
                  ["vulnscanner"; "go"; "/src/m"] eq_refl)).
Defined.

(** ** The end of the report *)

Lemma plain_fold fmtFloat1 results : forall found out,
  fold_left (Plain.reportStep fmtFloat1) results (found, out)
  = (found || existsb isAffected results,
     (out ++ flat_map (Plain.block fmtFloat1) (filter isAffected results))%list).
Proof.
  induction results as [|r results IH]; intros found out.
  - cbn. now rewrite orb_false_r, app_nil_r.
  - cbn [fold_left Plain.reportStep existsb filter].
    unfold isAffected at 1 3, vulnCount.
    destruct (0 <? Z.of_nat (List.length (Vulnerabilities r))).
    + rewrite IH. cbn [flat_map orb]. rewrite orb_true_r, <- app_assoc. reflexivity.
    + rewrite IH. reflexivity.
Qed.

Lemma total_zero_affected results :
  (totalVulnerabilities results =? 0) = negb (existsb isAffected results).
Proof.
  induction results as [|r results IH]; [reflexivity|].
  cbn [totalVulnerabilities fold_right existsb].
  fold (totalVulnerabilities results).
  pose proof (totalVulnerabilities_nonneg results) as Hn.
  unfold isAffected. destruct (Z.ltb_spec 0 (vulnCount r)) as [Hr|Hr]; cbn [orb negb].
  - apply Z.eqb_neq. lia.
  - assert (E : vulnCount r = 0) by (unfold vulnCount in *; lia).
    rewrite E, Z.add_0_l. exact IH.
Qed.

(** C7, as stated, fails on the plain reporter (src/unnamed/part_001): for
    one report with two vulnerabilities [main.go] ends with the summary
    line, the plain reporter prints the block of the report and nothing
    about counts. *)
Lemma summary_counterexample :
  affected [sampleReport] = 1
  /\ totalVulnerabilities [sampleReport] = 2
  /\ last (report Strings.ToLowerASCII sampleFmt [sampleReport]) (Exit 0)
     = Out (summaryLine 1 2)
  /\ Strings.Index (stdout (Plain.printReport sampleFmt [sampleReport]))
       "Summary" = None
  /\ Strings.Index (stdout (Plain.printReport sampleFmt [sampleReport]))
       "dependencies affected" = None.
Proof. repeat split; vm_compute; reflexivity. Qed.

(** C7, amended. [main.go] ends its report with one line: the summary
    "N dependencies affected, M vulnerabilities found." where N counts the
    reports with at least one vulnerability and M all vulnerabilities, or,
    when M is zero, the clean message alone with no table before it; one
    report with two vulnerabilities gives
    "1 dependencies affected, 2 vulnerabilities found.".  The plain
    reporter (src/unnamed/part_001) prints the blocks of the reports that
    have vulnerabilities and, when M is zero, its clean message alone; it
    never prints a summary line. *)
Theorem summary_by_variant
  (ToLower : string -> string) (fmtFloat1 : spec_float -> string)
  (results : list OSSIndexResponse) :
  (exists tables,
      report ToLower fmtFloat1 results
      = (tables ++ [Out (if totalVulnerabilities results =? 0 then cleanLine
                         else summaryLine (affected results)
                                (totalVulnerabilities results))])%list
      /\ (totalVulnerabilities results = 0 -> tables = []))
  /\ (forall n m,
        summaryLine n m
        = NL ++ "Summary: " ++ itoa n ++ " dependencies affected, " ++ itoa m
             ++ " vulnerabilities found." ++ NL)
  /\ (forall coordinates v1 v2,
        exists tables,
          report ToLower fmtFloat1
            [{| Coordinates := coordinates; Vulnerabilities := [v1; v2] |}]
          = (tables
               ++ [Out (NL ++ "Summary: 1 dependencies affected, "
                           ++ "2 vulnerabilities found." ++ NL)])%list)
  /\ Plain.printReport fmtFloat1 results
     = (flat_map (Plain.block fmtFloat1) (filter isAffected results)
        ++ (if totalVulnerabilities results =? 0 then [Out Plain.cleanLine]
            else []))%list
  /\ (totalVulnerabilities results = 0 ->
      Plain.printReport fmtFloat1 results = [Out Plain.cleanLine])
  /\ (forall n m,
        ~ In (Out (summaryLine n m)) (Plain.printReport fmtFloat1 results)).
Proof.
  assert (G : forall rs, exists tables,
      report ToLower fmtFloat1 rs
      = (tables ++ [Out (if totalVulnerabilities rs =? 0 then cleanLine
                         else summaryLine (affected rs)
                                (totalVulnerabilities rs))])%list
      /\ (totalVulnerabilities rs = 0 -> tables = [])).
  { intros rs. unfold report.
    destruct (report_loop ToLower fmtFloat1 rs 0 0 []) as (tables & E & Hz & _).
    rewrite E. cbn [app]. rewrite !Z.add_0_l.
    exists tables. split; [|exact Hz].
    now destruct (totalVulnerabilities rs =? 0). }
  assert (P : Plain.printReport fmtFloat1 results
     = (flat_map (Plain.block fmtFloat1) (filter isAffected results)
        ++ (if totalVulnerabilities results =? 0 then [Out Plain.cleanLine]
            else []))%list).
  { unfold Plain.printReport. rewrite plain_fold, total_zero_affected.
    cbn [orb app].
    destruct (existsb isAffected results); cbn [negb];
      [now rewrite app_nil_r | reflexivity]. }
  split; [apply G|]. split; [reflexivity|]. split; [|split; [exact P|split]].
  - intros c v1 v2.
    destruct (G [{| Coordinates := c; Vulnerabilities := [v1; v2] |}])
      as (tables & E & _).
    exists tables. exact E.
  - intros Hz. rewrite P.
    pose proof (total_zero_affected results) as Ha. rewrite Hz in Ha.
    cbn in Ha. symmetry in Ha. apply negb_true_iff in Ha.
    assert (F : filter isAffected results = []).
    { clear - Ha. induction results as [|r rs IH]; [reflexivity|].
      cbn [existsb] in Ha. apply orb_false_iff in Ha. destruct Ha as [Hr Hrs].
      cbn [filter]. rewrite Hr. now apply IH. }
    rewrite F, Hz. reflexivity.
  - intros n m Hin. rewrite P in Hin. apply in_app_or in Hin.
    destruct Hin as [Hin|Hin].
    + apply in_flat_map in Hin. destruct Hin as (r & _ & Hin).
      unfold Plain.block in Hin. destruct Hin as [Hin|Hin]; [discriminate|].
      apply in_flat_map in Hin. destruct Hin as (v & _ & Hin).
      unfold Plain.vulnLines in Hin.
      destruct Hin as [H|[H|[H|[H|[H|[]]]]]]; discriminate.
    + destruct (totalVulnerabilities results =? 0); [|contradiction].
      destruct Hin as [H|[]]. discriminate.
Qed.



(** C9, as stated, fails on the plain reporter (src/unnamed/part_001): it
    asks for at least two arguments and compares the selector in lower
    case, so an invocation with a third argument and the selector [GO]
    reads the manifest and sends its request. *)
Lemma usage_counterexample :
  usageError ["vulnscanner"; "GO"; "/src/m"; "extra"]
  /\ Plain.main Strings.ToLowerASCII sampleFmt
       (sampleEnv ("require (" ++ NL ++ "  a.b/c v1.0.0" ++ NL ++ ")" ++ NL) [] [])
       (fun _ => false) ["vulnscanner"; "GO"; "/src/m"; "extra"]
     = [Out ("Parsing go.mod..." ++ NL); Read "/src/m/go.mod";
        Out ("Found 1 dependencies. Checking vulnerabilities..." ++ NL);
        Post ossIndexURL ["pkg:golang/a.b/c@v1.0.0"];
        Out Plain.cleanLine].
Proof.
  split; [left; simpl; discriminate|]. vm_compute. reflexivity.
Qed.

(** C9, amended.  In [main.go], with an argument missing or in excess the
    run prints the usage line, with a selector other than [go] and [java]
    it prints the line of supported languages; in both cases nothing else
    happens (no manifest is opened, no parser runs, no request is sent) and
    the status is 1.  The plain reporter (src/unnamed/part_001) does the
    same for fewer than two arguments (with its three usage lines) and for
    a selector that in lower case is neither [go] nor [java]; arguments
    after the second are ignored and a selector in upper case is accepted,
    the run then going on to read the manifest. *)
Theorem usage_errors_by_variant
  (ToLower : string -> string) (fmtFloat1 : spec_float -> string)
  (env : Env) (notExist : string -> bool) (args : list string) :
  (usageError args ->
   (exists msg,
       (msg = usageLine \/ msg = supportedLine)
       /\ main ToLower fmtFloat1 env args = [Out msg; Exit 1])
   /\ (List.length args <> 3%nat ->
       main ToLower fmtFloat1 env args = [Out usageLine; Exit 1])
   /\ parserResult env args = None
   /\ existsb isRead (main ToLower fmtFloat1 env args) = false
   /\ existsb isPost (main ToLower fmtFloat1 env args) = false
   /\ exitStatus (main ToLower fmtFloat1 env args) = Some 1)
  /\ (plainUsageError ToLower args ->
      (Plain.main ToLower fmtFloat1 env notExist args = Plain.usage
       \/ Plain.main ToLower fmtFloat1 env notExist args
          = [Out supportedLine; Exit 1])
      /\ ((List.length args < 3)%nat ->
          Plain.main ToLower fmtFloat1 env notExist args = Plain.usage)
      /\ existsb isRead (Plain.main ToLower fmtFloat1 env notExist args) = false
      /\ existsb isPost (Plain.main ToLower fmtFloat1 env notExist args) = false
      /\ exitStatus (Plain.main ToLower fmtFloat1 env notExist args) = Some 1)
  /\ (forall prog lang path more,
        args = prog :: lang :: path :: more ->
        Plain.main ToLower fmtFloat1 env notExist args
        = Plain.main ToLower fmtFloat1 env notExist [prog; lang; path]
        /\ (ToLower lang = "go" ->
            notExist (Join env path "go.mod") = false ->
            In (Read (Join env path "go.mod"))
               (Plain.main ToLower fmtFloat1 env notExist args))
        /\ (ToLower lang = "java" ->
            notExist (Join env path "pom.xml") = false ->
            In (Read (Join env path "pom.xml"))
               (Plain.main ToLower fmtFloat1 env notExist args))).
Proof.
  split; [|split].
  - intros [Hlen|(prog & lang & path & -> & Hgo & Hjava)].
    + assert (E : main ToLower fmtFloat1 env args = [Out usageLine; Exit 1]
                  /\ parserResult env args = None).
      { destruct args as [|a0 [|a1 [|a2 [|a3 args]]]]; try (split; reflexivity).
        simpl in Hlen. congruence. }
      destruct E as [E1 E2]. rewrite E1, E2.
      repeat split; eauto.
    + apply String.eqb_neq in Hgo, Hjava.
      unfold main, parserResult. rewrite Hgo, Hjava.
      repeat split; eauto. simpl. congruence.
  - intros [Hlen|(prog & lang & path & more & -> & Hgo & Hjava)].
    + assert (E : Plain.main ToLower fmtFloat1 env notExist args = Plain.usage).
      { destruct args as [|a0 [|a1 [|a2 args]]]; try reflexivity.
        simpl in Hlen. lia. }
      rewrite E. repeat split; auto.
    + apply String.eqb_neq in Hgo, Hjava.
      unfold Plain.main. rewrite Hgo, Hjava.
      split; [now right|]. split; [|repeat split].
      cbn [List.length]. lia.
  - intros prog lang path more ->. split; [reflexivity|]. split.
    + intros E N. unfold Plain.main. rewrite E, N. cbn. auto.
    + intros E N. unfold Plain.main. rewrite E, N. cbn. auto.
Qed.

Lemma usage_errors_by_variant_witness :
  usageError ["vulnscanner"; "rust"; "/src/m"; "extra"]
  /\ main Strings.ToLowerASCII sampleFmt (sampleEnv EmptyString [] [])
       ["vulnscanner"; "rust"; "/src/m"; "extra"]
     = [Out usageLine; Exit 1]
  /\ plainUsageError Strings.ToLowerASCII ["vulnscanner"; "Rust"; "/src/m"; "extra"]
  /\ exitStatus (Plain.main Strings.ToLowerASCII sampleFmt
                   (sampleEnv EmptyString [] []) (fun _ => false)
                   ["vulnscanner"; "Rust"; "/src/m"; "extra"]) = Some 1.
Proof.
  assert (H : usageError ["vulnscanner"; "rust"; "/src/m"; "extra"]).
  { left. simpl. discriminate. }
  assert (P : plainUsageError Strings.ToLowerASCII
                ["vulnscanner"; "Rust"; "/src/m"; "extra"]).
  { right. exists "vulnscanner", "Rust", "/src/m", ["extra"].
    split; [reflexivity|]. split; vm_compute; discriminate. }
  split; [exact H|]. split; [|split; [exact P|]].
  - exact (proj1 (proj2 (proj1 (usage_errors_by_variant Strings.ToLowerASCII
                                  sampleFmt (sampleEnv EmptyString [] [])
                                  (fun _ => false)
                                  ["vulnscanner"; "rust"; "/src/m"; "extra"]) H))
             ltac:(simpl; discriminate)).
  - exact (proj2 (proj2 (proj2 (proj2
             (proj1 (proj2 (usage_errors_by_variant Strings.ToLowerASCII
                              sampleFmt (sampleEnv EmptyString [] [])
                              (fun _ => false)
                              ["vulnscanner"; "Rust"; "/src/m"; "extra"])) P))))).
Defined.

(** C10. [truncate] panics exactly when the string is longer than the
    budget and the budget is below 3, the slice bound [max-3] then being
    negative; with a budget of at least 3, or a string that fits, it
    returns. *)
Theorem truncate_panics_iff (s : string) (max : Z) :
  truncate s max = None <-> (max < len s /\ max < 3).
Proof.
  unfold truncate.
  destruct (Z.gtb_spec (len s) max) as [Hgt|Hle].
  - destruct (sliceTo s (max - 3)) as [p|] eqn:E.
    + split; [discriminate|]. intros [_ H].
      assert (N : sliceTo s (max - 3) = None) by (apply sliceTo_none; lia).
      congruence.
    + apply sliceTo_none in E. split; [|reflexivity]. intros _. lia.
  - split; [discriminate | lia].
Qed.

(** The budget of the box renderer is counted before the dots are added. *)
Example box_truncate_adds_dots :
  Box.truncate "abcdefgh" 5 = Some "abcde..."
  /\ truncate "abcdefgh" 5 = Some "ab...".
Proof. split; reflexivity. Qed.

(** * Further properties *)

Lemma run_Star r k pos s c :
  Regexp.run (Regexp.Star r) k pos s c
  = starLoop (Regexp.run r) k (S (String.length s)) pos s c.
Proof. reflexivity. Qed.

Lemma starLoop_cls p k : forall s fuel pos c,
  (String.length s < fuel)%nat ->
  starLoop (Regexp.run (Regexp.Cls p)) k fuel pos s c = starCls p k pos s c.
Proof.
  induction s as [|a t IH]; intros [|fuel] pos c Hf; try (simpl in Hf; lia).
  - reflexivity.
  - cbn [starLoop Regexp.run starCls].
    destruct (p a); [|reflexivity].
    replace (pos <? S pos)%nat with true by (symmetry; apply Nat.ltb_lt; lia).
    rewrite IH by (simpl in Hf; lia). reflexivity.
Qed.

Lemma run_star_cls p k pos s c :
  Regexp.run (Regexp.Star (Regexp.Cls p)) k pos s c = starCls p k pos s c.
Proof. rewrite run_Star. apply starLoop_cls. lia. Qed.

Lemma spanWhile_app p s :
  fst (spanWhile p s) ++ snd (spanWhile p s) = s.
Proof.
  induction s as [|a t IH]; [reflexivity|]. cbn [spanWhile].
  destruct (p a); [|reflexivity].
  destruct (spanWhile p t) as [x r]. cbn [fst snd] in *. cbn. now rewrite IH.
Qed.

Lemma spanWhile_all p s : allBytes p (fst (spanWhile p s)) = true.
Proof.
  induction s as [|a t IH]; [reflexivity|]. cbn [spanWhile].
  destruct (p a) eqn:E; [|reflexivity].
  destruct (spanWhile p t) as [x r]. cbn [fst] in *. cbn. now rewrite E, IH.
Qed.

Lemma spanWhile_stops p s : stopsAt p (snd (spanWhile p s)) = true.
Proof.
  induction s as [|a t IH]; [reflexivity|]. cbn [spanWhile].
  destruct (p a) eqn:E.
  - destruct (spanWhile p t) as [x r]. exact IH.
  - cbn. now rewrite E.
Qed.

(** The longest run is the only one after which the rest of the pattern can
    match, when that rest cannot start on a byte of the class. *)
Lemma starCls_skip p k : 
  (forall pos a t c, p a = true -> k pos (String a t) c = None) ->
  forall s pos c,
    starCls p k pos s c
    = k (pos + String.length (fst (spanWhile p s)))%nat (snd (spanWhile p s)) c.
Proof.
  intros Hk. induction s as [|a t IH]; intros pos c.
  - cbn. now rewrite Nat.add_0_r.
  - cbn [starCls spanWhile]. destruct (p a) eqn:E.
    + rewrite IH, (Hk pos a t c E).
      destruct (spanWhile p t) as [x r]. cbn [fst snd String.length].
      replace (S pos + String.length x)%nat with (pos + S (String.length x))%nat by lia.
      now destruct (k _ r c).
    + cbn. now rewrite Nat.add_0_r.
Qed.

(** When the rest of the pattern matches after the longest run, that is the
    match. *)
Lemma starCls_max p k : forall s pos c,
  k (pos + String.length (fst (spanWhile p s)))%nat (snd (spanWhile p s)) c <> None ->
  starCls p k pos s c
  = k (pos + String.length (fst (spanWhile p s)))%nat (snd (spanWhile p s)) c.
Proof.
  induction s as [|a t IH]; intros pos c H.
  - cbn in *. now rewrite Nat.add_0_r in *.
  - cbn [starCls spanWhile] in *. destruct (p a) eqn:E.
    + destruct (spanWhile p t) as [x r] eqn:Es. cbn [fst snd String.length] in *.
      replace (pos + S (String.length x))%nat with (S pos + String.length x)%nat in * by lia.
      rewrite IH by exact H.
      destruct (k _ r c); [reflexivity | congruence].
    + cbn in *. now rewrite Nat.add_0_r in *.
Qed.

Lemma run_Seq r1 r2 k pos s c :
  Regexp.run (Regexp.Seq r1 r2) k pos s c = Regexp.run r1 (Regexp.run r2 k) pos s c.
Proof. reflexivity. Qed.

Lemma run_Cls p k pos s c :
  Regexp.run (Regexp.Cls p) k pos s c
  = match s with
    | String a t => if p a then k (S pos) t c else None
    | EmptyString => None
    end.
Proof. reflexivity. Qed.

Lemma run_Grp n r k pos s c :
  Regexp.run (Regexp.Grp n r) k pos s c
  = Regexp.run r (fun pos' s' c' => k pos' s' ((n, (pos, pos')) :: c')) pos s c.
Proof. reflexivity. Qed.

Lemma run_Plus_cls p k pos s c :
  Regexp.run (Regexp.Plus (Regexp.Cls p)) k pos s c
  = match s with
    | String a t => if p a then starCls p k (S pos) t c else None
    | EmptyString => None
    end.
Proof.
  unfold Regexp.Plus. rewrite run_Seq, run_Cls.
  destruct s as [|a t]; [reflexivity|]. destruct (p a); [|reflexivity].
  apply run_star_cls.
Qed.

Lemma depPattern_parts :
  depPattern
  = Regexp.Seq Regexp.Bol (Regexp.Seq (Regexp.Star (Regexp.Cls Regexp.space)) tokRe).
Proof. reflexivity. Qed.

Lemma run_verRe start pos s c :
  Regexp.run verRe (finalK start) pos s c
  = match fst (spanWhile verchar s) with
    | EmptyString => None
    | String _ _ =>
      let e := (pos + String.length (fst (spanWhile verchar s)))%nat in
      Some ((O, (start, e)) :: (2%nat, (pos, e)) :: c)
    end.
Proof.
  unfold verRe. rewrite run_Grp, run_Plus_cls.
  destruct s as [|a t]; [reflexivity|]. cbn [spanWhile].
  destruct (verchar a); [|reflexivity].
  rewrite starCls_max by (unfold finalK; discriminate).
  destruct (spanWhile verchar t) as [x r]. cbn [fst snd String.length].
  unfold finalK. now replace (S pos + String.length x)%nat
                   with (pos + S (String.length x))%nat by lia.
Qed.

Lemma run_vRe k pos s c :
  Regexp.run vRe k pos s c
  = match s with
    | String a t => if Ascii.eqb "v" a then Regexp.run verRe k (S pos) t c else None
    | EmptyString => None
    end.
Proof. reflexivity. Qed.

Lemma space_not_v a : Regexp.space a = true -> Ascii.eqb "v" a = false.
Proof.
  intros H. destruct (Ascii.eqb_spec "v"%char a) as [<-|]; [discriminate | reflexivity].
Qed.

Lemma run_spRe k pos s c :
  Regexp.run spRe k pos s c
  = match fst (spanWhile Regexp.space s) with
    | EmptyString => None
    | String _ _ =>
      Regexp.run vRe k (pos + String.length (fst (spanWhile Regexp.space s)))%nat
        (snd (spanWhile Regexp.space s)) c
    end.
Proof.
  unfold spRe. rewrite run_Seq, run_Plus_cls.
  destruct s as [|a t]; [reflexivity|]. cbn [spanWhile].
  destruct (Regexp.space a); [|reflexivity].
  rewrite starCls_skip.
  - destruct (spanWhile Regexp.space t) as [x r]. cbn [fst snd String.length].
    now replace (S pos + String.length x)%nat
      with (pos + S (String.length x))%nat by lia.
  - intros pos' a' t' c' Ha. rewrite run_vRe. now rewrite space_not_v.
Qed.

Lemma run_tokRe k pos s c :
  Regexp.run tokRe k pos s c
  = match fst (spanWhile nonspace s) with
    | EmptyString => None
    | String _ _ =>
      let e := (pos + String.length (fst (spanWhile nonspace s)))%nat in
      Regexp.run spRe k e (snd (spanWhile nonspace s)) ((1%nat, (pos, e)) :: c)
    end.
Proof.
  unfold tokRe. rewrite run_Seq, run_Grp, run_Plus_cls.
  destruct s as [|a t]; [reflexivity|]. cbn [spanWhile].
  destruct (nonspace a); [|reflexivity].
  rewrite starCls_skip.
  - destruct (spanWhile nonspace t) as [x r]. cbn [fst snd String.length].
    now replace (S pos + String.length x)%nat
      with (pos + S (String.length x))%nat by lia.
  - intros pos' a' t' c' Ha. rewrite run_spRe. cbn [spanWhile].
    unfold nonspace in Ha. apply negb_true_iff in Ha. now rewrite Ha.
Qed.

Lemma run_depPattern k line :
  Regexp.run depPattern k 0 line []
  = Regexp.run tokRe k (String.length (fst (spanWhile Regexp.space line)))
      (snd (spanWhile Regexp.space line)) [].
Proof.
  rewrite depPattern_parts, run_Seq.
  change (Regexp.run Regexp.Bol ?k' 0 line []) with (k' 0%nat line (@nil (nat * (nat * nat)))).
  rewrite run_Seq, run_star_cls, starCls_skip; [reflexivity|].
  intros pos a t c Ha. rewrite run_tokRe. cbn [spanWhile].
  unfold nonspace. now rewrite Ha.
Qed.

Lemma substring_mid a b c :
  substring (String.length a) (String.length b) (a ++ b ++ c) = b.
Proof.
  induction a as [|x a IH]; cbn [String.length append].
  - induction b as [|y b IHb]; cbn [String.length append].
    + destruct c; reflexivity.
    + cbn [substring]. now rewrite IHb.
  - cbn [substring]. exact IH.
Qed.

Lemma findFrom_depPattern line :
  Regexp.findFrom depPattern 0 line
  = Regexp.run depPattern (finalK 0) 0 line [].
Proof.
  destruct line as [|a t]; cbn [Regexp.findFrom]; fold (finalK 0).
  - now destruct (Regexp.run depPattern (finalK 0) 0 EmptyString []).
  - destruct (Regexp.run depPattern (finalK 0) 0 (String a t) []); [reflexivity|].
    apply findFrom_anchored. lia.
Qed.

(** The pattern of a requirement matches exactly the lines the scanner
    reads, with the same groups. *)
Lemma depPattern_scan line :
  Regexp.FindStringSubmatch depPattern 2 line = depScan line.
Proof.
  unfold Regexp.FindStringSubmatch, depScan.
  rewrite findFrom_depPattern, run_depPattern, run_tokRe.
  pose proof (spanWhile_app Regexp.space line) as L1.
  destruct (spanWhile Regexp.space line) as [ind r1]. cbn [fst snd] in *.
  pose proof (spanWhile_app nonspace r1) as L2.
  destruct (spanWhile nonspace r1) as [tok r2]. cbn [fst snd] in *.
  pose proof (spanWhile_app Regexp.space r2) as L3.
  destruct (spanWhile Regexp.space r2) as [sp r3] eqn:E3. cbn [fst snd] in *.
  destruct tok as [|t0 tok']; [reflexivity|].
  cbv zeta. rewrite run_spRe, E3. cbn [fst snd].
  destruct sp as [|s0 sp']; [reflexivity|].
  rewrite run_vRe. destruct r3 as [|a r4]; [reflexivity|].
  destruct (Ascii.eqb_spec "v"%char a) as [<-|]; [|reflexivity].
  rewrite run_verRe.
  pose proof (spanWhile_app verchar r4) as L4.
  destruct (spanWhile verchar r4) as [ver r5]. cbn [fst snd] in *.
  destruct ver as [|v0 ver']; [reflexivity|].
  cbv zeta. f_equal. cbn [seq map]. unfold Regexp.group. cbn [Regexp.lookup Nat.eqb].
  set (tok := String t0 tok') in *. set (sp := String s0 sp') in *.
  set (ver := String v0 ver') in *.
  assert (E : line = ind ++ tok ++ sp ++ "v" ++ ver ++ r5).
  { rewrite <- L1, <- L2, <- L3, <- L4. reflexivity. }
  assert (Ln : forall x y, String.length (x ++ y)
                           = (String.length x + String.length y)%nat)
    by apply length_append.
  f_equal; [|f_equal; [|f_equal]]; rewrite E.
  - pose proof (substring_mid EmptyString (ind ++ tok ++ sp ++ "v" ++ ver) r5) as H.
    rewrite !Ln in H. cbn [String.length append] in H.
    rewrite !append_assoc in H. cbn [append] in H.
    match goal with
    | |- substring ?b ?n _ = _ =>
      match type of H with
      | substring _ ?n' _ = _ => replace n with n' by lia
      end
    end.
    exact H.
  - replace (String.length ind + String.length tok - String.length ind)%nat
      with (String.length tok) by lia.
    apply substring_mid.
  - pose proof (substring_mid (ind ++ tok ++ sp ++ "v") ver r5) as H.
    rewrite !Ln in H. cbn [String.length] in H.
    rewrite !append_assoc in H. cbn [append] in H.
    match goal with
    | |- substring ?b ?n _ = _ =>
      match type of H with
      | substring ?b' _ _ = _ =>
        replace n with (String.length ver) by lia; replace b with b' by lia
      end
    end.
    exact H.
Qed.

(** X1. The pattern of a requirement, run with backtracking, finds exactly
    what one pass from left to right finds: blanks, a token without blanks,
    blanks, the letter [v] and at least one version byte, anchored at the
    start of the line; the module is the token and the version the longest
    run of version bytes. *)
Theorem requirement_pattern_scanner (line : string) :
  Regexp.FindStringSubmatch depPattern 2 line = depScan line.
Proof. apply depPattern_scan. Qed.

Lemma depScan_shape line :
  depScan line = None
  \/ exists m0 m v,
       depScan line = Some [m0; m; v]
       /\ m <> EmptyString /\ allBytes nonspace m = true
       /\ v <> EmptyString /\ allBytes verchar v = true.
Proof.
  unfold depScan.
  destruct (spanWhile Regexp.space line) as [ind r1].
  pose proof (spanWhile_all nonspace r1) as Ht.
  destruct (spanWhile nonspace r1) as [tok r2]. cbn [fst] in Ht.
  destruct (spanWhile Regexp.space r2) as [sp r3].
  destruct tok as [|t0 tok]; [now left|].
  destruct sp as [|s0 sp]; [now left|].
  destruct r3 as [|a r4]; [now left|].
  destruct (Ascii.eqb "v" a); [|now left].
  pose proof (spanWhile_all verchar r4) as Hv.
  destruct (spanWhile verchar r4) as [ver r5]. cbn [fst] in Hv.
  destruct ver as [|v0 ver]; [now left|].
  right. do 3 eexists. split; [reflexivity|].
  repeat split; auto; discriminate.
Qed.

Lemma entryCoord_wf line : Forall goCoordinate (entryCoord line).
Proof.
  unfold entryCoord.
  destruct (depScan_shape line) as [->|(m0 & m & v & -> & H)]; [constructor|].
  constructor; [|constructor]. exists m, v. split; [reflexivity | exact H].
Qed.

(** One step of the scan loop, with the scanner in place of the pattern. *)
Lemma goModStep_scan inBlock coords line :
  goModStep (inBlock, coords) line
  = if Strings.HasPrefix line "require (" then (true, coords)
    else if inBlock && Strings.HasPrefix line ")" then (false, coords)
    else if inBlock || Strings.HasPrefix line "require"
         then (inBlock, (coords ++ entryCoord line)%list)
         else (inBlock, coords).
Proof.
  unfold goModStep, entryCoord. rewrite depPattern_scan.
  destruct (Strings.HasPrefix line "require ("); [reflexivity|].
  destruct (inBlock && Strings.HasPrefix line ")"); [reflexivity|].
  destruct (inBlock || Strings.HasPrefix line "require"); [|reflexivity].
  destruct (depScan_shape line) as [->|(m0 & m & v & -> & _)];
    [now rewrite app_nil_r | reflexivity].
Qed.

Lemma goModStep_wf st line :
  Forall goCoordinate (snd st) -> Forall goCoordinate (snd (goModStep st line)).
Proof.
  destruct st as [inBlock coords]. rewrite goModStep_scan. cbn [snd]. intros H.
  destruct (Strings.HasPrefix line "require ("); [exact H|].
  destruct (inBlock && Strings.HasPrefix line ")"); [exact H|].
  destruct (inBlock || Strings.HasPrefix line "require"); [|exact H].
  cbn [snd]. apply Forall_app. split; [exact H | apply entryCoord_wf].
Qed.

Lemma fold_goModStep_wf lines : forall st,
  Forall goCoordinate (snd st) ->
  Forall goCoordinate (snd (fold_left goModStep lines st)).
Proof.
  induction lines as [|l lines IH]; intros st H; [exact H|].
  cbn [fold_left]. apply IH. now apply goModStep_wf.
Qed.

(** X4. Every coordinate read from a go.mod has the form
    [pkg:golang/<module>@v<version>] with a non-empty module without blanks
    and a non-empty version made of version bytes. *)
Theorem goModCoords_well_formed (text : string) :
  Forall goCoordinate (goModCoords text).
Proof. unfold goModCoords. apply fold_goModStep_wf. constructor. Qed.

Lemma prefix_require line :
  Strings.HasPrefix line "require" = false ->
  Strings.HasPrefix line "require (" = false.
Proof.
  unfold Strings.HasPrefix. intros H.
  destruct (prefix "require (" line) eqn:E; [|reflexivity].
  apply prefix_correct in E. rewrite <- H. symmetry.
  apply prefix_correct.
  destruct line as [|c0 [|c1 [|c2 [|c3 [|c4 [|c5 [|c6 [|c7 [|c8 l]]]]]]]]];
    cbn in E; try discriminate.
  injection E as -> -> -> -> -> -> -> -> ->. reflexivity.
Qed.

(** X5. Without a line that begins with [require] nothing is read: only
    such a line opens a block or is looked at outside one. *)
Theorem goModCoords_needs_require (text : string) :
  Forall (fun line => Strings.HasPrefix line "require" = false)
         (Bufio.scanLines text) ->
  goModCoords text = [].
Proof.
  unfold goModCoords. intros H.
  assert (G : fold_left goModStep (Bufio.scanLines text) (false, [])
              = (false, [])).
  { induction H as [|l ls Hl _ IH]; [reflexivity|].
    cbn [fold_left]. rewrite goModStep_scan, (prefix_require l Hl), Hl.
    cbn. exact IH. }
  now rewrite G.
Qed.

Lemma goModCoords_needs_require_witness :
  Forall (fun line => Strings.HasPrefix line "require" = false)
         (Bufio.scanLines ("module example.com/m" ++ NL ++ "go 1.21" ++ NL
                           ++ "    github.com/pkg/errors v0.9.1" ++ NL))
  /\ goModCoords ("module example.com/m" ++ NL ++ "go 1.21" ++ NL
                  ++ "    github.com/pkg/errors v0.9.1" ++ NL) = [].
Proof.
  assert (H : Forall (fun line => Strings.HasPrefix line "require" = false)
         (Bufio.scanLines ("module example.com/m" ++ NL ++ "go 1.21" ++ NL
                           ++ "    github.com/pkg/errors v0.9.1" ++ NL))).
  { repeat constructor. }
  split; [exact H|].
  exact (goModCoords_needs_require _ H).
Defined.

(** X3. Inside a block every line that is not a block token adds its own
    coordinate, if it has one, in the order of the lines, and the others are
    passed over; a block read from its opening line to its closing line
    leaves the parser outside a block. *)
Theorem block_lines_in_order (block : list string) (coords : list string) :
  forallb plainLine block = true ->
  fold_left goModStep block (true, coords)
  = (true, (coords ++ flat_map entryCoord block)%list)
  /\ fold_left goModStep (["require ("] ++ block ++ [")"])%list (false, coords)
     = (false, (coords ++ flat_map entryCoord block)%list).
Proof.
  intros H.
  assert (G : forall cs, fold_left goModStep block (true, cs)
                         = (true, (cs ++ flat_map entryCoord block)%list)).
  { revert H. induction block as [|l block IH]; intros H cs.
    - cbn. now rewrite app_nil_r.
    - cbn [forallb] in H. apply andb_true_iff in H. destruct H as [Hl H].
      unfold plainLine in Hl. apply andb_true_iff in Hl. destruct Hl as [H1 H2].
      apply negb_true_iff in H1, H2.
      cbn [fold_left flat_map]. rewrite goModStep_scan, H1, H2. cbn [andb orb].
      rewrite IH by exact H. now rewrite app_assoc. }
  split; [apply G|].
  rewrite !fold_left_app. cbn [fold_left].
  replace (goModStep (false, coords) "require (") with (true, coords) by reflexivity.
  rewrite G. reflexivity.
Qed.

Lemma block_lines_in_order_witness :
  forallb plainLine ["    github.com/pkg/errors v0.9.1"; "  not a requirement";
                     "    golang.org/x/text v0.3.7 // indirect"] = true
  /\ fold_left goModStep
       ["    github.com/pkg/errors v0.9.1"; "  not a requirement";
        "    golang.org/x/text v0.3.7 // indirect"] (true, [])
     = (true, ["pkg:golang/github.com/pkg/errors@v0.9.1";
               "pkg:golang/golang.org/x/text@v0.3.7"]).
Proof.
  split; [reflexivity|].
  exact (proj1 (block_lines_in_order
                  ["    github.com/pkg/errors v0.9.1"; "  not a requirement";
                   "    golang.org/x/text v0.3.7 // indirect"] [] eq_refl)).
Defined.

Lemma spanWhile_exact p a rest :
  allBytes p a = true -> stopsAt p rest = true -> spanWhile p (a ++ rest) = (a, rest).
Proof.
  intros Ha Hr. induction a as [|x a IH]; cbn [append].
  - destruct rest as [|y rest]; [reflexivity|]. cbn in *.
    apply negb_true_iff in Hr. now rewrite Hr.
  - cbn in Ha. apply andb_true_iff in Ha. destruct Ha as [Hx Ha].
    cbn [spanWhile]. now rewrite Hx, IH.
Qed.

(** X2. A well-formed entry, with or without a trailing comment, matches:
    the module is its first token, the version the bytes after the [v]. *)
Theorem entry_line_matches (ind tok sp ver tail : string) :
  allBytes Regexp.space ind = true ->
  tok <> EmptyString -> allBytes nonspace tok = true ->
  sp <> EmptyString -> allBytes Regexp.space sp = true ->
  ver <> EmptyString -> allBytes verchar ver = true ->
  stopsAt verchar tail = true ->
  Regexp.FindStringSubmatch depPattern 2 (ind ++ tok ++ sp ++ "v" ++ ver ++ tail)
  = Some [ind ++ tok ++ sp ++ "v" ++ ver; tok; ver].
Proof.
  intros Hi Ht0 Ht Hs0 Hs Hv0 Hv Hl.
  rewrite depPattern_scan. unfold depScan.
  destruct tok as [|t0 tok']; [congruence|].
  destruct sp as [|s0 sp']; [congruence|].
  destruct ver as [|v0 ver']; [congruence|].
  assert (Ht' := Ht). assert (Hs' := Hs).
  cbn [allBytes] in Ht', Hs'.
  apply andb_true_iff in Ht', Hs'. destruct Ht' as [Ht1 _], Hs' as [Hs1 _].
  rewrite (spanWhile_exact Regexp.space ind); [|exact Hi|].
  2:{ cbn. unfold nonspace in Ht1. exact Ht1. }
  rewrite (spanWhile_exact nonspace (String t0 tok')); [|exact Ht|].
  2:{ cbn. unfold nonspace. now rewrite Hs1. }
  rewrite (spanWhile_exact Regexp.space (String s0 sp')); [|exact Hs | reflexivity].
  change ("v" ++ String v0 ver' ++ tail)
    with (String "v" (String v0 ver' ++ tail)).
  cbv beta iota. rewrite Ascii.eqb_refl.
  rewrite (spanWhile_exact verchar (String v0 ver') tail Hv Hl).
  reflexivity.
Qed.

Lemma entry_line_matches_witness :
  allBytes Regexp.space "    " = true
  /\ "golang.org/x/text" <> EmptyString
  /\ allBytes nonspace "golang.org/x/text" = true
  /\ " " <> EmptyString /\ allBytes Regexp.space " " = true
  /\ "0.3.7" <> EmptyString /\ allBytes verchar "0.3.7" = true
  /\ stopsAt verchar " // indirect" = true
  /\ Regexp.FindStringSubmatch depPattern 2 "    golang.org/x/text v0.3.7 // indirect"
     = Some ["    golang.org/x/text v0.3.7"; "golang.org/x/text"; "0.3.7"].
Proof.
  repeat (split; [first [reflexivity | discriminate]|]).
  exact (entry_line_matches "    " "golang.org/x/text" " " "0.3.7" " // indirect"
           eq_refl ltac:(discriminate) eq_refl ltac:(discriminate) eq_refl
           ltac:(discriminate) eq_refl eq_refl).
Defined.

(** ** extractCWE *)

Lemma run_cweRe start pos s c :
  Regexp.run cweRe (finalK start) pos s c
  = match cweAt s with
    | Some r => Some ((O, (start, pos + String.length r)%nat) :: c)
    | None => None
    end.
Proof.
  unfold cweRe, cweAt.
  change (Regexp.Lit "CWE-")
    with (Regexp.Seq (Regexp.Cls (Ascii.eqb "C"))
            (Regexp.Seq (Regexp.Cls (Ascii.eqb "W"))
               (Regexp.Seq (Regexp.Cls (Ascii.eqb "E")) (Regexp.Cls (Ascii.eqb "-"))))).
  rewrite !run_Seq, run_Cls.
  destruct s as [|a [|b [|x [|d rest]]]]; try reflexivity;
    try (destruct (Ascii.eqb "C" a); [|reflexivity]; rewrite !run_Seq, run_Cls);
    try (destruct (Ascii.eqb "W" b); [|reflexivity]; rewrite !run_Seq, run_Cls);
    try (destruct (Ascii.eqb "E" x); [|reflexivity]; rewrite ?run_Seq, run_Cls);
    try reflexivity.
  destruct (Ascii.eqb "-" d); [|reflexivity]. cbn [andb].
  rewrite run_Plus_cls.
  destruct rest as [|r0 rest]; [reflexivity|]. cbn [spanWhile].
  destruct (Regexp.digit r0); [|reflexivity].
  rewrite starCls_max by (unfold finalK; discriminate).
  destruct (spanWhile Regexp.digit rest) as [ds r]. cbn [fst snd].
  unfold finalK. cbn [String.length append].
  now replace (S (S (S (S (S pos)))) + String.length ds)%nat
    with (pos + S (S (S (S (S (String.length ds))))))%nat by lia.
Qed.

Lemma substring_from pre r post :
  substring (String.length pre) (String.length r) (pre ++ r ++ post) = r.
Proof. apply substring_mid. Qed.

Lemma cweAt_prefix s r : cweAt s = Some r -> exists post, s = r ++ post.
Proof.
  unfold cweAt.
  destruct s as [|a [|b [|x [|d rest]]]]; try discriminate.
  destruct (Ascii.eqb_spec "C"%char a) as [<-|]; [|discriminate].
  destruct (Ascii.eqb_spec "W"%char b) as [<-|]; [|discriminate].
  destruct (Ascii.eqb_spec "E"%char x) as [<-|]; [|discriminate].
  destruct (Ascii.eqb_spec "-"%char d) as [<-|]; [|discriminate].
  cbn [andb]. pose proof (spanWhile_app Regexp.digit rest) as H.
  destruct (spanWhile Regexp.digit rest) as [ds post]. cbn [fst snd] in *.
  destruct ds as [|d0 ds]; [discriminate|].
  intros E. injection E as <-. exists post. rewrite <- H. reflexivity.
Qed.

Lemma findFrom_cweRe s : forall pre,
  match Regexp.findFrom cweRe (String.length pre) s with
  | Some c => Regexp.group (pre ++ s) c 0
  | None => EmptyString
  end = cweScan s.
Proof.
  induction s as [|a t IH]; intros pre.
  - cbn [Regexp.findFrom]. fold (finalK (String.length pre)).
    rewrite run_cweRe. reflexivity.
  - cbn [Regexp.findFrom cweScan]. fold (finalK (String.length pre)).
    rewrite run_cweRe.
    destruct (cweAt (String a t)) as [r|] eqn:E.
    + unfold Regexp.group. cbn [Regexp.lookup Nat.eqb].
      destruct (cweAt_prefix _ _ E) as [post ->].
      replace (String.length pre + String.length r - String.length pre)%nat
        with (String.length r) by lia.
      apply substring_mid.
    + specialize (IH (pre ++ String a EmptyString)).
      rewrite length_append in IH. cbn [String.length] in IH.
      replace (String.length pre + 1)%nat with (S (String.length pre)) in IH by lia.
      rewrite append_assoc in IH. exact IH.
Qed.

(** [extractCWE] returns the leftmost CWE token of the title. *)
Lemma extractCWE_scan title : extractCWE title = cweScan title.
Proof.
  unfold extractCWE, Regexp.FindString. fold cweRe.
  exact (findFrom_cweRe title EmptyString).
Qed.

Lemma cweAt_shape s r :
  cweAt s = Some r ->
  exists ds post,
    s = "CWE-" ++ ds ++ post /\ r = "CWE-" ++ ds
    /\ ds <> EmptyString /\ allBytes Regexp.digit ds = true
    /\ stopsAt Regexp.digit post = true.
Proof.
  unfold cweAt.
  destruct s as [|a [|b [|x [|d rest]]]]; try discriminate.
  destruct (Ascii.eqb_spec "C"%char a) as [<-|]; [|discriminate].
  destruct (Ascii.eqb_spec "W"%char b) as [<-|]; [|discriminate].
  destruct (Ascii.eqb_spec "E"%char x) as [<-|]; [|discriminate].
  destruct (Ascii.eqb_spec "-"%char d) as [<-|]; [|discriminate].
  cbn [andb].
  pose proof (spanWhile_app Regexp.digit rest) as H.
  pose proof (spanWhile_all Regexp.digit rest) as Ha.
  pose proof (spanWhile_stops Regexp.digit rest) as Hs.
  destruct (spanWhile Regexp.digit rest) as [ds post]. cbn [fst snd] in *.
  destruct ds as [|d0 ds]; [discriminate|].
  intros E. injection E as <-. exists (String d0 ds), post.
  rewrite <- H. repeat split; auto. discriminate.
Qed.

(** X7. [extractCWE] returns nothing or a token [CWE-<digits>] that stands in
    the title, with all the digits that follow it there; and it returns a
    token whenever the title has [CWE-] followed by a digit. *)
Theorem extractCWE_token (title : string) :
  (extractCWE title = EmptyString
   \/ exists pre ds post,
        title = pre ++ "CWE-" ++ ds ++ post
        /\ extractCWE title = "CWE-" ++ ds
        /\ ds <> EmptyString /\ allBytes Regexp.digit ds = true
        /\ stopsAt Regexp.digit post = true)
  /\ (forall pre d rest,
        title = pre ++ "CWE-" ++ String d rest -> Regexp.digit d = true ->
        extractCWE title <> EmptyString).
Proof.
  rewrite extractCWE_scan. split.
  - induction title as [|a t IH]; [now left|].
    cbn [cweScan]. destruct (cweAt (String a t)) as [r|] eqn:E.
    + right. destruct (cweAt_shape _ _ E) as (ds & post & Hs & -> & H).
      exists EmptyString, ds, post. rewrite Hs. repeat split; apply H.
    + destruct IH as [IH|(pre & ds & post & -> & H)]; [now left|].
      right. exists (String a pre), ds, post. split; [reflexivity | exact H].
  - intros pre d rest -> Hd.
    induction pre as [|a pre IH].
    + cbn [append cweScan cweAt Ascii.eqb Bool.eqb andb spanWhile].
      rewrite Hd. destruct (spanWhile Regexp.digit rest). cbn. discriminate.
    + change (String a pre ++ "CWE-" ++ String d rest)
        with (String a (pre ++ "CWE-" ++ String d rest)).
      cbn [cweScan].
      destruct (cweAt (String a (pre ++ "CWE-" ++ String d rest))) as [r|] eqn:E;
        [|exact IH].
      destruct (cweAt_shape _ _ E) as (ds & post & _ & -> & _). discriminate.
Qed.

(** ** parsePomXML *)

Lemma fold_pomStep deps : forall coords,
  fold_left pomStep deps coords = (coords ++ flat_map pomCoord deps)%list.
Proof.
  induction deps as [|d deps IH]; intros coords; cbn [fold_left flat_map].
  - now rewrite app_nil_r.
  - rewrite IH. unfold pomStep, pomCoord.
    destruct (groupId d), (artifactId d), (version d);
      cbn [app]; rewrite <- ?app_assoc; reflexivity.
Qed.

(** X6. [parsePomXML] fails only when the document cannot be read; otherwise it
    returns, in document order and with repetitions, one coordinate for each
    element that has a groupId, an artifactId and a version (whatever their
    text), and nothing for the others. *)
Theorem parsePomXML_complete_elements
  (readXML : string -> result (list Dependency)) (path : string) :
  (forall e, parsePomXML readXML path = Err e <-> readXML path = Err e)
  /\ (forall deps,
        readXML path = Ok deps ->
        parsePomXML readXML path = Ok (flat_map pomCoord deps)
        /\ (List.length (flat_map pomCoord deps) <= List.length deps)%nat
        /\ (forall c,
              In c (flat_map pomCoord deps) <->
              exists dep g a v,
                In dep deps /\ groupId dep = Some g /\ artifactId dep = Some a
                /\ version dep = Some v
                /\ c = "pkg:maven/" ++ g ++ "/" ++ a ++ "@" ++ v)).
Proof.
  unfold parsePomXML. split.
  - intros e. destruct (readXML path); split; congruence.
  - intros deps ->. rewrite fold_pomStep. cbn [app]. split; [reflexivity|]. split.
    + induction deps as [|d deps IH]; [cbn; lia|].
      cbn [flat_map List.length]. rewrite length_app.
      assert (List.length (pomCoord d) <= 1)%nat.
      { unfold pomCoord. destruct (groupId d), (artifactId d), (version d); cbn; lia. }
      lia.
    + intros c. rewrite in_flat_map. split.
      * intros (dep & Hin & Hc). unfold pomCoord in Hc.
        destruct (groupId dep) as [g|] eqn:Eg; [|destruct (artifactId dep), (version dep); contradiction].
        destruct (artifactId dep) as [a|] eqn:Ea; [|destruct (version dep); contradiction].
        destruct (version dep) as [v|] eqn:Ev; [|contradiction].
        destruct Hc as [<-|[]]. exists dep, g, a, v. auto.
      * intros (dep & g & a & v & Hin & Eg & Ea & Ev & ->).
        exists dep. split; [exact Hin|]. unfold pomCoord. rewrite Eg, Ea, Ev. now left.
Qed.

(** ** wrapText: every break is forced *)

Lemma wrap_fold_forced width : forall rest lines g,
  g <> [] ->
  exists x gs,
    concat ((g ++ x)%list :: gs) = (g ++ rest)%list
    /\ Forall (fun h => h <> []) gs
    /\ forced width ((g ++ x)%list :: gs)
    /\ (let (ls, l) := fold_left (wrapStep width) rest (lines, joinSp g) in
        (ls ++ [l])%list = (lines ++ map joinSp ((g ++ x)%list :: gs))%list).
Proof.
  induction rest as [|w rest IH]; intros lines g Hg.
  - exists [], []. cbn [concat fold_left map]. rewrite !app_nil_r.
    repeat split; auto.
  - cbn [fold_left wrapStep].
    destruct (Z.gtb_spec (Utf8.RuneCountInString (joinSp g) + 1
                          + Utf8.RuneCountInString w) width) as [Hgt|Hle].
    + destruct (IH (lines ++ [joinSp g])%list [w]) as (x & gs & Hc & Hne & Hf & Hl);
        [discriminate|].
      exists [], (([w] ++ x) :: gs)%list. rewrite !app_nil_r.
      split; [|split; [|split]].
      * cbn [concat] in *. now rewrite Hc.
      * constructor; [discriminate | exact Hne].
      * cbn [forced app] in *. split; [lia | exact Hf].
      * change (joinSp [w]) with w in Hl.
        destruct (fold_left (wrapStep width) rest ((lines ++ [joinSp g])%list, w)).
        rewrite Hl. cbn [map]. now rewrite <- app_assoc.
    + destruct (IH lines (g ++ [w])%list) as (x & gs & Hc & Hne & Hf & Hl);
        [destruct g; discriminate|].
      exists (w :: x), gs.
      replace (g ++ w :: x)%list with ((g ++ [w]) ++ x)%list
        by (now rewrite <- app_assoc).
      split; [|split; [|split]]; auto.
      * rewrite Hc. now rewrite <- app_assoc.
      * rewrite joinSp_snoc in Hl by assumption. exact Hl.
Qed.

Lemma fieldsFrom_nonempty s : forall skip cur,
  (forall w, cur = Some w -> w <> EmptyString) ->
  Forall (fun f => f <> EmptyString) (Strings.fieldsFrom skip cur s).
Proof.
  induction s as [|c t IH]; intros skip cur Hcur.
  - cbn. destruct cur as [w|]; [|constructor].
    constructor; [now apply Hcur | constructor].
  - destruct skip as [|k]; cbn [Strings.fieldsFrom].
    + destruct (Utf8.DecodeRuneInString (String c t)) as [r sz].
      destruct (Unicode.IsSpace r).
      * apply Forall_app. split.
        -- destruct cur as [w|]; cbn; [|constructor].
           constructor; [now apply Hcur | constructor].
        -- apply IH. discriminate.
      * apply IH. intros w Hw. destruct cur as [w0|]; cbn in Hw;
          injection Hw as <-; [destruct w0|]; discriminate.
    + apply IH. intros w Hw. destruct cur as [w0|]; cbn in Hw; [|discriminate].
      injection Hw as <-. destruct w0; discriminate.
Qed.

Lemma Fields_nonempty s : Forall (fun f => f <> EmptyString) (Strings.Fields s).
Proof. apply fieldsFrom_nonempty. discriminate. Qed.

Lemma joinSp_nonempty g :
  g <> [] -> Forall (fun f => f <> EmptyString) g -> joinSp g <> EmptyString.
Proof.
  destruct g as [|f g]; [congruence|]. intros _ H. inversion H; subst.
  destruct g as [|f' g].
  - assumption.
  - rewrite joinSp_cons by discriminate. destruct f; [congruence | discriminate].
Qed.

(** X8. For a text that has words, [wrapText] fills the lines greedily: the
    lines are the joins of consecutive runs of the words, no line is empty,
    and each line but the last is followed by a word that would not have
    fitted on it. *)
Theorem wrapText_greedy (s : string) (width : Z) :
  Strings.Fields s <> [] ->
  exists gs,
    concat gs = Strings.Fields s
    /\ wrapText s width = map joinSp gs
    /\ Forall (fun g => g <> []) gs
    /\ forced width gs
    /\ Forall (fun l => l <> EmptyString) (wrapText s width).
Proof.
  intros Hw. unfold wrapText, wrapWords.
  pose proof (Fields_nonempty s) as Hf.
  destruct (Strings.Fields s) as [|w0 rest]; [congruence|].
  destruct (wrap_fold_forced width rest [] [w0]) as (x & gs & Hc & Hne & Hfo & Hl);
    [discriminate|].
  change (joinSp [w0]) with w0 in Hl.
  destruct (fold_left (wrapStep width) rest ([], w0)) as [ls l].
  cbn [app] in Hl. rewrite Hl.
  exists (([w0] ++ x) :: gs)%list.
  assert (Hall : Forall (fun g => g <> []) (([w0] ++ x) :: gs)%list)
    by (constructor; [discriminate | exact Hne]).
  split; [exact Hc|]. split; [reflexivity|]. split; [exact Hall|].
  split; [exact Hfo|].
  rewrite Forall_forall. intros line Hin.
  apply in_map_iff in Hin. destruct Hin as (g & <- & Hg).
  rewrite Forall_forall in Hall. apply joinSp_nonempty; [now apply Hall|].
  rewrite Forall_forall in *. intros f Hfg. apply Hf.
  change (w0 :: rest) with ([w0] ++ rest)%list. rewrite <- Hc.
  apply in_concat. eauto.
Qed.

Lemma wrapText_greedy_witness :
  Strings.Fields "the quick  brown fox" <> []
  /\ exists gs,
       concat gs = Strings.Fields "the quick  brown fox"
       /\ wrapText "the quick  brown fox" 9 = map joinSp gs
       /\ Forall (fun g => g <> []) gs
       /\ forced 9 gs
       /\ Forall (fun l => l <> EmptyString) (wrapText "the quick  brown fox" 9).
Proof.
  split; [discriminate|].
  exact (wrapText_greedy "the quick  brown fox" 9 ltac:(discriminate)).
Defined.

(** ** extractUpgradeSuggestion: the token *)

Lemma length_substring n : forall m s,
  (String.length (substring n m s) <= String.length s - n)%nat.
Proof.
  induction n as [|n IH]; intros m s.
  - revert s. induction m as [|m IHm]; intros [|c s]; cbn; try lia.
    specialize (IHm s). lia.
  - destruct s as [|c s]; cbn; [destruct m; cbn; lia|]. apply IH.
Qed.

Lemma index_in_range p : forall s n idx,
  String.index n p s = Some idx ->
  (idx + String.length p <= String.length s)%nat.
Proof.
  induction s as [|b s IH]; intros n idx H.
  - destruct n; cbn in H; [|discriminate].
    destruct p; [|discriminate]. injection H as <-. cbn. lia.
  - destruct n as [|n]; cbn [String.index] in H.
    + destruct (prefix p (String b s)) eqn:E.
      * injection H as <-. apply prefix_correct in E.
        pose proof (length_substring 0 (String.length p) (String b s)) as L.
        rewrite E in L. lia.
      * destruct (String.index 0 p s) as [m|] eqn:Em; [|discriminate].
        injection H as <-. specialize (IH 0%nat m Em). cbn. lia.
    + destruct (String.index n p s) as [m|] eqn:Em; [|discriminate].
      injection H as <-. specialize (IH n m Em). cbn. lia.
Qed.

Lemma Index_in_range s p idx :
  Strings.Index s p = Some idx ->
  (idx + String.length p <= String.length s)%nat.
Proof. apply index_in_range. Qed.

Lemma tokenAfter_nonempty lower p tok :
  tokenAfter lower p = Some tok -> tok <> EmptyString.
Proof.
  unfold tokenAfter. destruct (Strings.Index lower p) as [idx|]; [|discriminate].
  pose proof (Fields_nonempty (sliceFrom lower (idx + String.length p))) as H.
  destruct (Strings.Fields (sliceFrom lower (idx + String.length p))) as [|t ts];
    [discriminate|].
  cbn. intros E. injection E as <-. now inversion H.
Qed.

Lemma suggestFrom_shape out lower : forall ps,
  suggestFrom out lower ps = EmptyString
  \/ exists p tok,
       In p ps /\ tokenAfter lower p = Some tok /\ tok <> EmptyString
       /\ suggestFrom out lower ps = out ++ tok.
Proof.
  induction ps as [|p ps IH]; [now left|].
  rewrite suggestFrom_cons.
  destruct (tokenAfter lower p) as [tok|] eqn:E.
  - right. exists p, tok. repeat split; auto; [now left|].
    now apply (tokenAfter_nonempty lower p).
  - destruct IH as [IH|(q & tok & Hin & Hq & Hne & Hs)]; [now left|].
    right. exists q, tok. repeat split; auto. now right.
Qed.

(** X9. The suggestion is empty or "Upgrade to " followed by a non-empty token
    found after one of the phrases; the slice taken after a phrase is always
    inside the string; and the cell shown in the row is never empty. *)
Theorem upgrade_suggestion_token (ToLower : string -> string) (desc : string) :
  (extractUpgradeSuggestion ToLower desc = EmptyString
   \/ exists p tok,
        In p phrases /\ tokenAfter (ToLower desc) p = Some tok
        /\ tok <> EmptyString
        /\ extractUpgradeSuggestion ToLower desc = "Upgrade to " ++ tok)
  /\ (forall p idx,
        Strings.Index (ToLower desc) p = Some idx ->
        (idx + String.length p <= String.length (ToLower desc))%nat)
  /\ (forall v, suggestedFix ToLower v <> EmptyString).
Proof.
  split; [apply suggestFrom_shape|]. split; [intros p idx; apply Index_in_range|].
  intros v. unfold suggestedFix.
  destruct (String.eqb_spec (extractUpgradeSuggestion ToLower (Description v))
                            EmptyString) as [E|E]; [|exact E].
  unfold hyperlink, ESC. discriminate.
Qed.

(** ** printVulnTable: one row for a vulnerability *)

(** X10. The description is cut to 40 bytes before it is wrapped at 40 runes, so
    it always fits on one line: a vulnerability takes exactly one row, whose
    description cell is the cut description with its white space
    normalised, at most 40 runes long. *)
Theorem vulnerability_one_row
  (ToLower : string -> string) (fmtFloat1 : spec_float -> string)
  (v : Vulnerability) :
  exists desc,
    renderedDescription v = Some desc
    /\ Utf8.RuneCountInString (joinSp (Strings.Fields desc)) <= width 3
    /\ vulnRows ToLower fmtFloat1 v
       = Some [firstRow fmtFloat1 v (extractCWE (Title v))
                 (suggestedFix ToLower v) (joinSp (Strings.Fields desc))].
Proof.
  unfold vulnRows, renderedDescription.
  destruct (truncate_within (Description v) (width 3)) as (r & E & Hlen & _).
  { unfold width. simpl. lia. }
  exists r. rewrite E.
  pose proof (RuneCount_le_len r) as H1.
  pose proof (RuneCount_joinSp_Fields r) as H2.
  split; [reflexivity|]. split; [lia|].
  unfold wrapText. rewrite wrapWords_single by lia. reflexivity.
Qed.

(** ** printTableLine: the width of a border *)

Lemma RuneCount_app a b :
  startsRune b ->
  Utf8.RuneCountInString (a ++ b)
  = Utf8.RuneCountInString a + Utf8.RuneCountInString b.
Proof.
  intros H. unfold Utf8.RuneCountInString.
  rewrite countFrom_sync by (auto; lia). lia.
Qed.

Lemma stdout_app a b : stdout (a ++ b) = stdout a ++ stdout b.
Proof.
  induction a as [|e a IH]; [reflexivity|].
  destruct e; cbn [app stdout]; rewrite IH; try reflexivity.
  now rewrite append_assoc.
Qed.

Lemma startsRune_append a b : startsRune a -> startsRune b -> startsRune (a ++ b).
Proof. destruct a; auto. Qed.

Lemma stdout_repeat_starts mid n rest :
  startsRune mid -> startsRune rest ->
  startsRune (stdout (repeat (Out mid) n) ++ rest).
Proof.
  intros Hm Hr. induction n as [|n IH]; [exact Hr|].
  cbn [repeat stdout]. rewrite append_assoc. now apply startsRune_append.
Qed.

Lemma RuneCount_repeat mid n :
  startsRune mid ->
  Utf8.RuneCountInString (stdout (repeat (Out mid) n))
  = Z.of_nat n * Utf8.RuneCountInString mid.
Proof.
  intros Hm. induction n as [|n IH]; [reflexivity|].
  cbn [repeat stdout]. rewrite RuneCount_app, IH; [lia|].
  pose proof (stdout_repeat_starts mid n EmptyString Hm I) as H.
  now rewrite append_nil_r in H.
Qed.

Lemma tableCells_starts sep mid ws :
  startsRune sep -> startsRune mid -> startsRune (stdout (tableCells sep mid ws)).
Proof.
  intros Hs Hm. induction ws as [|w ws IH]; [exact I|].
  cbn [tableCells]. rewrite !stdout_app.
  apply stdout_repeat_starts; [exact Hm|].
  apply startsRune_append; [|exact IH].
  destruct ws; [exact I|]. cbn [stdout]. now rewrite append_nil_r.
Qed.

Lemma RuneCount_tableCells sep mid ws :
  startsRune sep -> startsRune mid ->
  Utf8.RuneCountInString sep = 1 -> Utf8.RuneCountInString mid = 1 ->
  Utf8.RuneCountInString (stdout (tableCells sep mid ws))
  = fold_right (fun w acc => Z.of_nat (Z.to_nat (w + 2)) + acc) 0 ws
    + Z.of_nat (Nat.pred (List.length ws)).
Proof.
  intros Hs Hm Cs Cm. induction ws as [|w ws IH]; [reflexivity|].
  cbn [tableCells fold_right]. rewrite !stdout_app.
  pose proof (tableCells_starts sep mid ws Hs Hm) as Hc.
  assert (Hj : startsRune (stdout match ws with [] => [] | _ :: _ => [Out sep] end)).
  { destruct ws; [exact I|]. cbn [stdout]. now rewrite append_nil_r. }
  rewrite RuneCount_app by (apply startsRune_append; assumption).
  rewrite RuneCount_repeat by exact Hm.
  rewrite RuneCount_app by exact Hc.
  rewrite IH, Cm.
  destruct ws as [|w' ws].
  - cbn. lia.
  - cbn [stdout]. rewrite append_nil_r, Cs. cbn [List.length Nat.pred]. lia.
Qed.

Lemma stdout_tableCells_blank ws :
  stdout (tableCells EmptyString EmptyString ws) = EmptyString.
Proof.
  induction ws as [|w ws IH]; [reflexivity|].
  cbn [tableCells]. rewrite !stdout_app, IH, append_nil_r.
  assert (R : forall n, stdout (repeat (Out EmptyString) n) = EmptyString)
    by (induction n; auto).
  rewrite R. destruct ws; reflexivity.
Qed.

Lemma border_count lft sep mid rgt ws :
  startsRune sep -> startsRune mid -> startsRune rgt ->
  Utf8.RuneCountInString lft = 1 -> Utf8.RuneCountInString sep = 1 ->
  Utf8.RuneCountInString mid = 1 -> Utf8.RuneCountInString rgt = 1 ->
  Utf8.RuneCountInString (lft ++ stdout (tableCells sep mid ws) ++ rgt ++ NL)
  = borderWidth ws + 1.
Proof.
  intros Hs Hm Hr Cl Cs Cm Cr. unfold borderWidth.
  assert (Hn : startsRune NL) by reflexivity.
  rewrite RuneCount_app
    by (apply startsRune_append; [now apply tableCells_starts|];
        now apply startsRune_append).
  rewrite RuneCount_app by (now apply startsRune_append).
  rewrite RuneCount_app by exact Hn.
  rewrite RuneCount_tableCells by assumption.
  rewrite Cl, Cr. replace (Utf8.RuneCountInString NL) with 1 by reflexivity.
  lia.
Qed.

Lemma stdout_printTableLine kind ws :
  stdout (printTableLine kind ws)
  = let '(lft, sep, mid, rgt) := tableLineParts kind in
    lft ++ stdout (tableCells sep mid ws) ++ rgt ++ NL.
Proof.
  unfold printTableLine.
  destruct (tableLineParts kind) as [[[lft sep] mid] rgt].
  cbn [stdout]. rewrite stdout_app. cbn [stdout]. now rewrite append_nil_r.
Qed.

Lemma concat_cons_nil (x : string) (l : list string) :
  String.concat EmptyString (x :: l) = x ++ String.concat EmptyString l.
Proof.
  destruct l; cbn [String.concat]; [now rewrite append_nil_r | reflexivity].
Qed.

Lemma stdout_repeat mid n :
  stdout (repeat (Out mid) n) = String.concat EmptyString (repeat mid n).
Proof.
  induction n as [|n IH]; [reflexivity|].
  cbn [repeat stdout]. now rewrite IH, concat_cons_nil.
Qed.

Lemma stdout_tableCells sep mid ws :
  stdout (tableCells sep mid ws) = String.concat sep (map (dashes mid) ws).
Proof.
  induction ws as [|w ws IH]; [reflexivity|].
  cbn [tableCells map]. rewrite !stdout_app, stdout_repeat, IH.
  fold (dashes mid w).
  destruct ws as [|w' ws]; cbn [map String.concat stdout].
  - cbn [append]. now rewrite ?append_nil_r.
  - now rewrite append_nil_r.
Qed.

(** X12. For column widths [w] whose [w + 2] cannot overflow an [int],
    [printTableLine] prints for the kinds top, mid and bot the border made
    of the corner of the kind, [w + 2] dashes for each column, the joint of
    the kind between two columns, the closing corner and the line end; the
    three borders have the same width in runes for the same columns.  Any
    other kind prints an empty line. *)
Theorem table_border_width (kind : string) (ws : list Z) :
  Forall (fun w => w <= maxWidth) ws ->
  stdout (printTableLine "top" ws) = border "┌" "┬" "─" "┐" ws
  /\ stdout (printTableLine "mid" ws) = border "├" "┼" "─" "┤" ws
  /\ stdout (printTableLine "bot" ws) = border "└" "┴" "─" "┘" ws
  /\ (In kind ["top"; "mid"; "bot"] ->
      Utf8.RuneCountInString (stdout (printTableLine kind ws)) = borderWidth ws + 1)
  /\ (~ In kind ["top"; "mid"; "bot"] -> stdout (printTableLine kind ws) = NL).
Proof.
  intros _.
  assert (S : forall k lft sep mid rgt,
             tableLineParts k = (lft, sep, mid, rgt) ->
             stdout (printTableLine k ws) = border lft sep mid rgt ws).
  { intros k lft sep mid rgt E. rewrite stdout_printTableLine, E.
    unfold border. now rewrite stdout_tableCells. }
  split; [now apply S|]. split; [now apply S|]. split; [now apply S|].
  rewrite stdout_printTableLine. split.
  - intros Hk.
    assert (E : exists lft sep mid rgt,
               tableLineParts kind = (lft, sep, mid, rgt)
               /\ startsRune sep /\ startsRune mid /\ startsRune rgt
               /\ Utf8.RuneCountInString lft = 1 /\ Utf8.RuneCountInString sep = 1
               /\ Utf8.RuneCountInString mid = 1 /\ Utf8.RuneCountInString rgt = 1).
    { destruct Hk as [<-|[<-|[<-|[]]]]; do 4 eexists;
        (split; [reflexivity|]); repeat split; reflexivity. }
    destruct E as (lft & sep & mid & rgt & -> & Hs & Hm & Hr & Cl & Cs & Cm & Cr).
    now apply border_count.
  - intros Hk. unfold tableLineParts.
    destruct (String.eqb_spec kind "top") as [->|_]; [exfalso; apply Hk; cbn; auto|].
    destruct (String.eqb_spec kind "mid") as [->|_]; [exfalso; apply Hk; cbn; auto|].
    destruct (String.eqb_spec kind "bot") as [->|_]; [exfalso; apply Hk; cbn; auto|].
    now rewrite stdout_tableCells_blank.
Qed.

Lemma table_border_width_witness :
  Forall (fun w => w <= maxWidth) widths
  /\ stdout (printTableLine "mid" widths) = border "├" "┼" "─" "┤" widths
  /\ Utf8.RuneCountInString (stdout (printTableLine "mid" widths)) = 114.
Proof.
  assert (H : Forall (fun w => w <= maxWidth) widths).
  { unfold widths, maxWidth. repeat constructor; lia. }
  assert (K : In "mid" ["top"; "mid"; "bot"]) by (right; left; reflexivity).
  split; [exact H|]. split.
  - exact (proj1 (proj2 (table_border_width "mid" widths H))).
  - exact (proj1 (proj2 (proj2 (proj2 (table_border_width "mid" widths H)))) K).
Defined.

(** ** The driver *)

Section Driver.
Variable ToLower : string -> string.
Variable fmtFloat1 : spec_float -> string.

Lemma reportStep_clean st r :
  isAffected r = false -> reportStep ToLower fmtFloat1 st r = st.
Proof.
  unfold isAffected, vulnCount, reportStep. intros ->.
  destruct st as [[[d n] out]|]; reflexivity.
Qed.

Lemma fold_reportStep_filter results : forall st,
  fold_left (reportStep ToLower fmtFloat1) results st
  = fold_left (reportStep ToLower fmtFloat1) (filter isAffected results) st.
Proof.
  induction results as [|r results IH]; intros st; [reflexivity|].
  cbn [fold_left filter]. destruct (isAffected r) eqn:E.
  - cbn [fold_left]. apply IH.
  - rewrite reportStep_clean by exact E. apply IH.
Qed.

(** X13. Reports without vulnerabilities leave no trace in the output: the
    report is the one of the affected results alone. *)
Theorem report_omits_clean (results : list OSSIndexResponse) :
  report ToLower fmtFloat1 results
  = report ToLower fmtFloat1 (filter isAffected results).
Proof. unfold report. now rewrite fold_reportStep_filter. Qed.

Lemma posts_onlyOut t : onlyOut t -> posts t = [].
Proof.
  unfold onlyOut, posts. induction 1 as [|e t [s ->] _ IH]; [reflexivity|].
  cbn. exact IH.
Qed.

Lemma exitStatus_report results :
  exitStatus (report ToLower fmtFloat1 results) = Some 0.
Proof.
  unfold report.
  destruct (report_loop ToLower fmtFloat1 results 0 0 []) as (tables & E & _ & _).
  rewrite E. cbn [app].
  destruct (0 + totalVulnerabilities results =? 0);
    unfold exitStatus; now rewrite last_last.
Qed.

Lemma exitStatus_cons e t : t <> [] -> exitStatus (e :: t) = exitStatus t.
Proof. unfold exitStatus. destruct t; [congruence | reflexivity]. Qed.

Lemma report_nonempty results : report ToLower fmtFloat1 results <> [].
Proof.
  unfold report.
  destruct (fold_left (reportStep ToLower fmtFloat1) results
              (Some (0, 0, []))) as [[[d n] out]|]; [|discriminate].
  destruct (n =? 0); destruct out; discriminate.
Qed.

Variable env : Env.

(** X14. A run sends at most one request: none unless the parser returned at
    least one coordinate, otherwise exactly one, to the lookup address, with
    the coordinates of the parser in their order. *)
Theorem one_request (args : list string) :
  (posts (main ToLower fmtFloat1 env args) = []
   /\ forall coords, parserResult env args = Some (Ok coords) -> coords = [])
  \/ exists coords,
       coords <> []
       /\ parserResult env args = Some (Ok coords)
       /\ posts (main ToLower fmtFloat1 env args) = [Post ossIndexURL coords].
Proof.
  assert (A : forall lang parsed,
    (posts (afterParse ToLower fmtFloat1 env lang parsed) = []
     /\ forall coords, parsed = Ok coords -> coords = [])
    \/ exists coords, coords <> [] /\ parsed = Ok coords
         /\ posts (afterParse ToLower fmtFloat1 env lang parsed)
            = [Post ossIndexURL coords]).
  { intros lang [cs|e]; cbn [afterParse].
    - destruct cs as [|c cs].
      + left. split; [reflexivity|]. intros coords H. now injection H as <-.
      + right. exists (c :: cs). split; [discriminate|]. split; [reflexivity|].
        cbn [List.length Z.of_nat Z.eqb]. unfold posts. cbn [filter isPost].
        f_equal. destruct (checkVulnerabilities env (c :: cs)) as [results|e].
        * exact (posts_onlyOut _ (report_out ToLower fmtFloat1 results)).
        * reflexivity.
    - left. split; [reflexivity | discriminate]. }
  unfold main, parserResult.
  destruct args as [|prog [|lang [|path [|extra args]]]];
    try (left; split; [reflexivity | discriminate]).
  destruct (String.eqb lang "go").
  - destruct (A lang (parseGoMod (open env) (Join env path "go.mod")))
      as [[H1 H2]|(cs & Hne & Hp & Hposts)].
    + left. split; [exact H1|]. intros coords H. injection H as H. now apply H2.
    + right. exists cs. split; [exact Hne|]. split; [now rewrite Hp | exact Hposts].
  - destruct (String.eqb lang "java").
    + destruct (A lang (parsePomXML (readXML env) (Join env path "pom.xml")))
        as [[H1 H2]|(cs & Hne & Hp & Hposts)].
      * left. split; [exact H1|]. intros coords H. injection H as H. now apply H2.
      * right. exists cs. split; [exact Hne|]. split; [now rewrite Hp | exact Hposts].
    + left. split; [reflexivity | discriminate].
Qed.

(** X15. A run ends with status 0 or 1; with 0 exactly when the parser returned
    without error and either found no coordinate or the lookup answered. *)
Theorem exit_status (args : list string) :
  (exitStatus (main ToLower fmtFloat1 env args) = Some 0
   \/ exitStatus (main ToLower fmtFloat1 env args) = Some 1)
  /\ (exitStatus (main ToLower fmtFloat1 env args) = Some 0 <->
      exists coords,
        parserResult env args = Some (Ok coords)
        /\ (coords = []
            \/ exists results, checkVulnerabilities env coords = Ok results)).
Proof.
  assert (A : forall lang parsed,
    (exitStatus (afterParse ToLower fmtFloat1 env lang parsed) = Some 0
     /\ exists coords, parsed = Ok coords
          /\ (coords = [] \/ exists results, checkVulnerabilities env coords = Ok results))
    \/ (exitStatus (afterParse ToLower fmtFloat1 env lang parsed) = Some 1
        /\ ~ exists coords, parsed = Ok coords
          /\ (coords = [] \/ exists results, checkVulnerabilities env coords = Ok results))).
  { intros lang [cs|e]; cbn [afterParse].
    - destruct cs as [|c cs].
      + left. split; [reflexivity|]. exists []. auto.
      + cbn [List.length Z.of_nat Z.eqb].
        destruct (checkVulnerabilities env (c :: cs)) as [results|e] eqn:E.
        * left. split.
          -- rewrite !exitStatus_cons; [apply exitStatus_report| |];
               try discriminate. apply report_nonempty.
          -- exists (c :: cs). split; [reflexivity|]. right. eauto.
        * right. split; [reflexivity|].
          intros (coords & H & [->|[results Hr]]); injection H as H;
            [discriminate | subst; congruence].
    - right. split; [reflexivity|]. intros (coords & H & _). discriminate. }
  assert (B : forall lang p parsed,
    parserResult env args = Some parsed ->
    main ToLower fmtFloat1 env args
    = Read p :: afterParse ToLower fmtFloat1 env lang parsed ->
    (exitStatus (main ToLower fmtFloat1 env args) = Some 0
     \/ exitStatus (main ToLower fmtFloat1 env args) = Some 1)
    /\ (exitStatus (main ToLower fmtFloat1 env args) = Some 0 <->
        exists coords, parserResult env args = Some (Ok coords)
          /\ (coords = []
              \/ exists results, checkVulnerabilities env coords = Ok results))).
  { intros lang p parsed Hp Hm. rewrite Hm, Hp.
    assert (N : afterParse ToLower fmtFloat1 env lang parsed <> []).
    { destruct parsed as [cs|e]; cbn [afterParse]; [|discriminate].
      destruct (Z.of_nat (List.length cs) =? 0); discriminate. }
    rewrite exitStatus_cons by exact N.
    destruct (A lang parsed) as [[H0 Hex]|[H1 Hnex]].
    - rewrite H0. split; [now left|]. split; [intros _|reflexivity].
      destruct Hex as (coords & -> & H). exists coords. auto.
    - rewrite H1. split; [now right|]. split; [discriminate|].
      intros (coords & H & Hc). exfalso. apply Hnex. exists coords.
      injection H as ->. auto. }
  assert (C : forall msg,
    parserResult env args = None ->
    main ToLower fmtFloat1 env args = [Out msg; Exit 1] ->
    (exitStatus (main ToLower fmtFloat1 env args) = Some 0
     \/ exitStatus (main ToLower fmtFloat1 env args) = Some 1)
    /\ (exitStatus (main ToLower fmtFloat1 env args) = Some 0 <->
        exists coords, parserResult env args = Some (Ok coords)
          /\ (coords = []
              \/ exists results, checkVulnerabilities env coords = Ok results))).
  { intros msg Hp Hm. rewrite Hm, Hp. split; [now right|].
    split; [discriminate | intros (coords & H & _); discriminate]. }
  destruct args as [|prog [|lang [|path [|extra args]]]];
    try (apply (C usageLine); reflexivity).
  destruct (String.eqb lang "go") eqn:Ego.
  - eapply B; unfold parserResult, main; rewrite Ego; reflexivity.
  - destruct (String.eqb lang "java") eqn:Ejava.
    + eapply B; unfold parserResult, main; rewrite Ego, Ejava; reflexivity.
    + apply (C supportedLine); unfold parserResult, main; now rewrite Ego, Ejava.
Qed.

(** X16. When the parser fails (a manifest that cannot be opened or read) the
    run writes only "Error parsing: <error>" to standard error and ends with
    status 1, without a request; when the lookup fails it ends, after its
    one request, with "Error fetching vulnerabilities: <error>" on standard
    error and status 1, only the announcement of the lookup having been
    printed. *)
Theorem failed_runs (args : list string) :
  (forall e,
      parserResult env args = Some (Err e) ->
      stdout (main ToLower fmtFloat1 env args) = EmptyString
      /\ stderr (main ToLower fmtFloat1 env args) = "Error parsing: " ++ e ++ NL
      /\ posts (main ToLower fmtFloat1 env args) = []
      /\ exitStatus (main ToLower fmtFloat1 env args) = Some 1)
  /\ (forall coords e,
        parserResult env args = Some (Ok coords) ->
        coords <> [] ->
        checkVulnerabilities env coords = Err e ->
        stdout (main ToLower fmtFloat1 env args)
        = ColorBold ++ "Parsing " ++ nth 1 args EmptyString ++ " → found "
            ++ itoa (Z.of_nat (List.length coords))
            ++ " dependencies. Querying vulnerabilities…" ++ ColorReset
            ++ NL ++ NL
        /\ stderr (main ToLower fmtFloat1 env args)
           = "Error fetching vulnerabilities: " ++ e ++ NL
        /\ posts (main ToLower fmtFloat1 env args) = [Post ossIndexURL coords]
        /\ exitStatus (main ToLower fmtFloat1 env args) = Some 1).
Proof.
  split.
  - intros e. unfold parserResult, main.
    destruct args as [|prog [|lang [|path [|extra args]]]]; try discriminate.
    destruct (String.eqb lang "go").
    + intros H. injection H as ->. cbn. rewrite append_nil_r. auto.
    + destruct (String.eqb lang "java"); [|discriminate].
      intros H. injection H as ->. cbn. rewrite append_nil_r. auto.
  - intros coords e. unfold parserResult, main.
    destruct args as [|prog [|lang [|path [|extra args]]]]; try discriminate.
    assert (A : forall p parsed,
      parsed = Ok coords -> coords <> [] ->
      checkVulnerabilities env coords = Err e ->
      Read p :: afterParse ToLower fmtFloat1 env lang parsed
      = [Read p;
         Out (ColorBold ++ "Parsing " ++ lang ++ " → found "
              ++ itoa (Z.of_nat (List.length coords))
              ++ " dependencies. Querying vulnerabilities…" ++ ColorReset
              ++ NL ++ NL);
         Post ossIndexURL coords;
         ErrOut ("Error fetching vulnerabilities: " ++ e ++ NL); Exit 1]).
    { intros p parsed -> Hne Hc. cbn [afterParse].
      destruct coords as [|c cs]; [congruence|].
      cbn [List.length Z.of_nat Z.eqb]. now rewrite Hc. }
    destruct (String.eqb lang "go").
    + intros H Hne Hc. injection H as H. rewrite (A _ _ H Hne Hc).
      cbn [stdout stderr posts filter isPost nth]. rewrite !append_nil_r.
      repeat split.
    + destruct (String.eqb lang "java"); [|discriminate].
      intros H Hne Hc. injection H as H. rewrite (A _ _ H Hne Hc).
      cbn [stdout stderr posts filter isPost nth]. rewrite !append_nil_r.
      repeat split.
Qed.

End Driver.

(** ** truncate, twice and in the box renderer *)

(** X17. Cutting a description that has already been cut changes nothing. *)
Theorem truncate_idempotent (s r : string) (max : Z) :
  truncate s max = Some r -> truncate r max = Some r.
Proof.
  unfold truncate at 1.
  destruct (Z.gtb_spec (len s) max) as [Hgt|Hle].
  - destruct (sliceTo s (max - 3)) as [p|] eqn:E; [|discriminate].
    intros H. injection H as <-.
    unfold sliceTo in E.
    destruct (Z.ltb_spec (max - 3) 0); [discriminate|].
    destruct (Z.ltb_spec (len s) (max - 3)); [discriminate|].
    cbn [orb] in E. injection E as <-.
    unfold truncate.
    assert (L : len (take (Z.to_nat (max - 3)) s ++ "...") = max).
    { unfold len in *. rewrite length_append, length_take by lia. cbn. lia. }
    rewrite L. destruct (Z.gtb_spec max max); [lia | reflexivity].
  - intros H. injection H as <-. unfold truncate.
    destruct (Z.gtb_spec (len s) max); [lia | reflexivity].
Qed.

Lemma truncate_idempotent_witness :
  truncate "Incorrect Implementation of Authentication Algorithm in Kafka" 40
  = Some "Incorrect Implementation of Authentic..."
  /\ truncate "Incorrect Implementation of Authentic..." 40
     = Some "Incorrect Implementation of Authentic...".
Proof.
  split; [reflexivity|].
  exact (truncate_idempotent
           "Incorrect Implementation of Authentication Algorithm in Kafka"
           "Incorrect Implementation of Authentic..." 40 eq_refl).
Defined.

(** X18. The box renderer's [truncate] panics exactly for a negative budget;
    otherwise a string within the budget is returned unchanged and a longer
    one is cut to the budget and then given its three dots, so that the
    result is three bytes over the budget. *)
Theorem box_truncate_over_budget (s : string) (l : Z) :
  (Box.truncate s l = None <-> l < 0)
  /\ (0 <= l ->
      exists r,
        Box.truncate s l = Some r
        /\ (len s <= l -> r = s)
        /\ (l < len s -> r = take (Z.to_nat l) s ++ "..." /\ len r = l + 3)).
Proof.
  unfold Box.truncate.
  assert (Hs : 0 <= len s) by (unfold len; lia).
  destruct (Z.gtb_spec (len s) l) as [Hgt|Hle].
  - destruct (Z_lt_ge_dec l 0) as [Hneg|Hpos].
    + assert (E : sliceTo s l = None) by (apply sliceTo_none; lia).
      rewrite E. split; [tauto | lia].
    + rewrite sliceTo_some by lia. split; [split; [discriminate | lia]|].
      intros _. eexists. split; [reflexivity|]. split; [lia|]. intros _.
      split; [reflexivity|].
      unfold len in *. rewrite length_append, length_take by lia. cbn. lia.
  - split; [split; [discriminate | lia]|].
    intros _. exists s. split; [reflexivity|]. split; [reflexivity | lia].
Qed.

Lemma box_truncate_over_budget_witness :
  0 <= 5 /\ Box.truncate "abcdefgh" 5 = Some "abcde...".
Proof.
  split; [lia|].
  destruct (proj2 (box_truncate_over_budget "abcdefgh" 5) ltac:(lia))
    as (r & E & _ & H).
  rewrite E. f_equal. apply H. reflexivity.
Defined.

(** ** The plain reporter *)

Lemma takeRunesFrom_short s : forall n skip,
  (Utf8.countFrom skip s <= n)%nat -> Plain.takeRunesFrom n skip s = s.
Proof.
  induction s as [|c t IH]; intros n skip H; [reflexivity|].
  destruct skip as [|k]; cbn [Plain.takeRunesFrom Utf8.countFrom] in *.
  - destruct n as [|n]; [lia|]. rewrite IH by lia. reflexivity.
  - now rewrite IH.
Qed.

Lemma takeRunesFrom_prefix s : forall n skip,
  exists rest, s = Plain.takeRunesFrom n skip s ++ rest.
Proof.
  induction s as [|c t IH]; intros n skip; [now exists EmptyString|].
  destruct skip as [|k]; cbn [Plain.takeRunesFrom].
  - destruct n as [|n]; [now exists (String c t)|].
    destruct (IH n (snd (Utf8.DecodeRuneInString (String c t)) - 1)%nat) as [rest E].
    exists rest. cbn [append]. now rewrite <- E.
  - destruct (IH n k) as [rest E]. exists rest. cbn [append]. now rewrite <- E.
Qed.

(** ** The runes of a string *)

Lemma take_drop (n : nat) (s : string) : take n s ++ drop n s = s.
Proof.
  unfold take. revert s.
  induction n as [|n IH]; intros [|c s]; cbn; try reflexivity.
  now rewrite IH.
Qed.

Lemma take_S (n : nat) (c : ascii) (s : string) :
  take (S n) (String c s) = String c (take n s).
Proof. reflexivity. Qed.

Lemma drop_append (a b : string) : drop (String.length a) (a ++ b) = b.
Proof. induction a as [|c a IH]; [now destruct b | exact IH]. Qed.

Lemma decode_width_pos s :
  s <> EmptyString -> (1 <= snd (Utf8.DecodeRuneInString s))%nat.
Proof.
  destruct s as [|c0 [|c1 [|c2 [|c3 t]]]]; [congruence| | | |]; intros _; simpl;
  repeat match goal with
  | |- context [if ?c then _ else _] => destruct c
  | |- context [match ?x with _ => _ end] => destruct x
  end; simpl; lia.
Qed.

(** A rune is decoded from its own bytes: cutting the string at or after the
    end of its first rune does not change the width of that rune. *)
Lemma decode_prefix p rest :
  (snd (Utf8.DecodeRuneInString (p ++ rest)) <= String.length p)%nat ->
  snd (Utf8.DecodeRuneInString p) = snd (Utf8.DecodeRuneInString (p ++ rest)).
Proof.
  destruct p as [|c0 p].
  { cbn [append String.length]. destruct rest as [|r0 rest]; [reflexivity|].
    intros H. pose proof (decode_width_pos (String r0 rest)) as P.
    assert (String r0 rest <> EmptyString) by discriminate. specialize (P H0). lia. }
  cbn [append Utf8.DecodeRuneInString String.length].
  destruct (byteVal c0 <? 128); [reflexivity|].
  destruct (Utf8.leadInfo (byteVal c0)) as [[sz [lo hi]]|] eqn:E; [|reflexivity].
  apply leadInfo_range in E. destruct E as (_ & _ & Hsz & _).
  destruct p as [|c1 p]; cbn [append String.length].
  { destruct rest as [|r0 rest]; [reflexivity|].
    destruct (Utf8.outside lo hi (byteVal r0)); [reflexivity|].
    destruct (sz <=? 2)%nat; [cbn; lia|].
    destruct rest as [|r1 rest]; [reflexivity|].
    destruct (Utf8.outside 128 191 (byteVal r1)); [reflexivity|].
    destruct (sz <=? 3)%nat; [cbn; lia|].
    destruct rest as [|r2 rest]; [reflexivity|].
    destruct (Utf8.outside 128 191 (byteVal r2)); [reflexivity|]. cbn; lia. }
  destruct (Utf8.outside lo hi (byteVal c1)); [reflexivity|].
  destruct (sz <=? 2)%nat; [reflexivity|].
  destruct p as [|c2 p]; cbn [append String.length].
  { destruct rest as [|r1 rest]; [reflexivity|].
    destruct (Utf8.outside 128 191 (byteVal r1)); [reflexivity|].
    destruct (sz <=? 3)%nat; [cbn; lia|].
    destruct rest as [|r2 rest]; [reflexivity|].
    destruct (Utf8.outside 128 191 (byteVal r2)); [reflexivity|]. cbn; lia. }
  destruct (Utf8.outside 128 191 (byteVal c2)); [reflexivity|].
  destruct (sz <=? 3)%nat; [reflexivity|].
  destruct p as [|c3 p]; cbn [append String.length].
  { destruct rest as [|r2 rest]; [reflexivity|].
    destruct (Utf8.outside 128 191 (byteVal r2)); [reflexivity|]. cbn; lia. }
  reflexivity.
Qed.

Lemma countFrom_skip t : forall k,
  (k <= String.length t)%nat -> Utf8.countFrom k t = Utf8.countFrom 0 (drop k t).
Proof.
  induction t as [|c t IH]; intros [|k] H; try reflexivity.
  cbn [Utf8.countFrom drop]. apply IH. cbn in H. lia.
Qed.

Lemma takeRunesFrom_skip n t : forall k,
  (k <= String.length t)%nat ->
  Plain.takeRunesFrom n k t = take k t ++ Plain.takeRunesFrom n 0 (drop k t).
Proof.
  induction t as [|c t IH]; intros [|k] H; try reflexivity.
  cbn [Plain.takeRunesFrom drop]. rewrite take_S. cbn [append].
  rewrite IH; [reflexivity|]. cbn in H. lia.
Qed.

(** One turn of the loops: the first rune, then the rest. *)
Lemma countFrom_step s :
  s <> EmptyString ->
  Utf8.countFrom 0 s
  = S (Utf8.countFrom 0 (drop (snd (Utf8.DecodeRuneInString s)) s)).
Proof.
  intros Hs. destruct s as [|c t]; [congruence|].
  pose proof (decode_width_pos (String c t) Hs) as P.
  pose proof (decode_width_le (String c t)) as L.
  cbn [String.length] in L.
  cbn [Utf8.countFrom]. rewrite countFrom_skip by lia.
  destruct (snd (Utf8.DecodeRuneInString (String c t))) as [|w]; [lia|].
  cbn [drop]. now replace (S w - 1)%nat with w by lia.
Qed.

Lemma takeRunes_step n s :
  s <> EmptyString ->
  Plain.takeRunes (S n) s
  = take (snd (Utf8.DecodeRuneInString s)) s
    ++ Plain.takeRunes n (drop (snd (Utf8.DecodeRuneInString s)) s).
Proof.
  intros Hs. destruct s as [|c t]; [congruence|].
  pose proof (decode_width_pos (String c t) Hs) as P.
  pose proof (decode_width_le (String c t)) as L.
  cbn [String.length] in L.
  unfold Plain.takeRunes. cbn [Plain.takeRunesFrom].
  rewrite takeRunesFrom_skip by lia.
  destruct (snd (Utf8.DecodeRuneInString (String c t))) as [|w]; [lia|].
  rewrite take_S. cbn [drop append]. now replace (S w - 1)%nat with w by lia.
Qed.

Lemma takeRunes_0 s : Plain.takeRunes 0 s = EmptyString.
Proof. now destruct s. Qed.

Lemma length_drop n s : String.length (drop n s) = (String.length s - n)%nat.
Proof.
  revert s. induction n as [|n IH]; intros [|c s]; cbn; try reflexivity; try lia.
  apply IH.
Qed.

Lemma runesFuel_nil fuel : runesFuel fuel EmptyString = [].
Proof. now destruct fuel. Qed.

Lemma runesFuel_step fuel s :
  s <> EmptyString ->
  runesFuel (S fuel) s
  = take (snd (Utf8.DecodeRuneInString s)) s
    :: runesFuel fuel (drop (snd (Utf8.DecodeRuneInString s)) s).
Proof. destruct s; [congruence | reflexivity]. Qed.

(** The loops over the runes of [s], as one induction. *)
Lemma runes_loop : forall fuel s,
  (String.length s <= fuel)%nat ->
  String.concat EmptyString (runesFuel fuel s) = s
  /\ List.length (runesFuel fuel s) = Utf8.countFrom 0 s
  /\ Forall (fun r => r <> EmptyString
                      /\ snd (Utf8.DecodeRuneInString r) = String.length r)
            (runesFuel fuel s)
  /\ forall n,
       Plain.takeRunes n s
       = String.concat EmptyString (firstn n (runesFuel fuel s))
       /\ Utf8.countFrom 0 (Plain.takeRunes n s)
          = Nat.min n (Utf8.countFrom 0 s).
Proof.
  induction fuel as [|fuel IH]; intros s Hlen.
  { destruct s; [|cbn in Hlen; lia]. cbn. repeat split; auto.
    - now destruct n.
    - now destruct n. }
  destruct s as [|c t] eqn:Es.
  { cbn. repeat split; auto.
    - now destruct n.
    - now destruct n. }
  rewrite <- Es in *. assert (Hs : s <> EmptyString) by (subst; discriminate).
  clear Es.
  pose proof (decode_width_pos s Hs) as P.
  pose proof (decode_width_le s) as L.
  set (w := snd (Utf8.DecodeRuneInString s)) in *.
  assert (Hd : (String.length (drop w s) <= fuel)%nat)
    by (rewrite length_drop; lia).
  destruct (IH (drop w s) Hd) as (Hc & Hn & Hf & Ht).
  rewrite runesFuel_step by exact Hs. fold w.
  assert (Hw : snd (Utf8.DecodeRuneInString (take w s)) = w).
  { pose proof (decode_prefix (take w s) (drop w s)) as D.
    rewrite take_drop in D. fold w in D. rewrite length_take in D by lia.
    apply D. lia. }
  split; [|split; [|split]].
  - rewrite concat_cons_nil, Hc. apply take_drop.
  - cbn [List.length]. rewrite Hn. rewrite (countFrom_step s Hs). reflexivity.
  - constructor; [|exact Hf]. split.
    + intros E. pose proof (length_take w s L) as T. rewrite E in T. cbn in T. lia.
    + rewrite Hw. now rewrite length_take.
  - intros [|n].
    { rewrite takeRunes_0. split; reflexivity. }
    destruct (Ht n) as [T1 T2].
    rewrite takeRunes_step by exact Hs. fold w.
    cbn [firstn]. rewrite concat_cons_nil, <- T1. split; [reflexivity|].
    destruct (takeRunesFrom_prefix (drop w s) n 0%nat) as [rest Er].
    fold (Plain.takeRunes n (drop w s)) in Er.
    set (q := Plain.takeRunes n (drop w s)) in *.
    assert (Hne : take w s ++ q <> EmptyString).
    { intros E. pose proof (length_take w s L) as T.
      destruct (take w s); [cbn in T; lia | discriminate]. }
    assert (Hwq : snd (Utf8.DecodeRuneInString (take w s ++ q)) = w).
    { pose proof (decode_prefix (take w s ++ q) rest) as D.
      rewrite append_assoc, <- Er, take_drop in D. fold w in D.
      rewrite D; [reflexivity|].
      rewrite length_append, length_take by lia. lia. }
    rewrite (countFrom_step _ Hne), Hwq.
    replace (drop w (take w s ++ q)) with q.
    2:{ pose proof (drop_append (take w s) q) as Dq.
        rewrite length_take in Dq by lia. now rewrite Dq. }
    rewrite T2, (countFrom_step s Hs). fold w. reflexivity.
Qed.

Section PlainReporter.
Variable ToLower : string -> string.
Variable fmtFloat1 : spec_float -> string.

(** X19. The plain reporter prints one block for each report that has
    vulnerabilities, in order, and nothing for the others; the line
    "No known vulnerabilities found!" comes exactly when no report has any;
    there is no summary line. *)
Theorem plain_report_blocks (results : list OSSIndexResponse) :
  Plain.printReport fmtFloat1 results
  = (flat_map (Plain.block fmtFloat1) (filter isAffected results)
     ++ (if existsb isAffected results then [] else [Out Plain.cleanLine]))%list.
Proof.
  unfold Plain.printReport. rewrite plain_fold. cbn [orb app].
  destruct (existsb isAffected results); cbn [negb]; [now rewrite app_nil_r | reflexivity].
Qed.

(** X20. The plain reporter prints the description with [%.120s...]: what
    is shown is the first 120 runes of the description as a [for range]
    loop meets them, each with all its bytes (an invalid byte is a rune of
    its own), 120 runes or the whole description if it has fewer, and then
    always the three dots: a description of at most 120 runes is printed
    whole, followed by "...". *)
Theorem plain_description_dots (v : Vulnerability) :
  In (Out ("    Description: " ++ Plain.takeRunes 120 (Description v)
           ++ "..." ++ NL))
     (Plain.vulnLines fmtFloat1 v)
  /\ String.concat EmptyString (runes (Description v)) = Description v
  /\ Z.of_nat (List.length (runes (Description v)))
     = Utf8.RuneCountInString (Description v)
  /\ Forall (fun r => r <> EmptyString
                      /\ snd (Utf8.DecodeRuneInString r) = String.length r)
            (runes (Description v))
  /\ Plain.takeRunes 120 (Description v)
     = String.concat EmptyString (firstn 120 (runes (Description v)))
  /\ Utf8.RuneCountInString (Plain.takeRunes 120 (Description v))
     = Z.min 120 (Utf8.RuneCountInString (Description v))
  /\ (Utf8.RuneCountInString (Description v) <= 120 ->
      Plain.takeRunes 120 (Description v) = Description v).
Proof.
  destruct (runes_loop (String.length (Description v)) (Description v) (le_n _))
    as (Hc & Hn & Hf & Ht).
  destruct (Ht 120%nat) as [T1 T2].
  split; [unfold Plain.vulnLines; cbn; auto|].
  split; [exact Hc|]. split; [unfold runes, Utf8.RuneCountInString; now rewrite Hn|].
  split; [exact Hf|]. split; [exact T1|]. split.
  - unfold Utf8.RuneCountInString. rewrite T2. lia.
  - intros H. apply takeRunesFrom_short.
    unfold Utf8.RuneCountInString in H. lia.
Qed.

(** The cut falls between two runes: after the two bytes of the second. *)
Example takeRunes_multibyte :
  Plain.takeRunes 2 "aéb" = "aé" /\ runes "aéb" = ["a"; "é"; "b"].
Proof. split; reflexivity. Qed.

Variable env : Env.
Variable notExist : string -> bool.

(** The plain reporter looks only at the first two arguments, so more
    arguments are not an error, and it compares the selector after
    lowercasing it; when the manifest of the selected ecosystem does not
    exist it says so and ends with status 1 before any parser or request. *)
Lemma plain_main_guards (prog arg1 path : string) (more : list string) :
  Plain.main ToLower fmtFloat1 env notExist (prog :: arg1 :: path :: more)
  = Plain.main ToLower fmtFloat1 env notExist [prog; arg1; path]
  /\ (ToLower arg1 = "go" -> notExist (Join env path "go.mod") = true ->
      Plain.main ToLower fmtFloat1 env notExist (prog :: arg1 :: path :: more)
      = [Out ("go.mod not found in the specified path." ++ NL); Exit 1])
  /\ (ToLower arg1 = "java" -> notExist (Join env path "pom.xml") = true ->
      Plain.main ToLower fmtFloat1 env notExist (prog :: arg1 :: path :: more)
      = [Out ("pom.xml not found in the specified path." ++ NL); Exit 1])
  /\ (forall args, (List.length args < 3)%nat ->
        Plain.main ToLower fmtFloat1 env notExist args = Plain.usage).
Proof.
  split; [reflexivity|]. split; [|split].
  - intros E N. unfold Plain.main. now rewrite E, N.
  - intros E N. unfold Plain.main. now rewrite E, N.
  - intros [|a0 [|a1 [|a2 args]]] H; try reflexivity. cbn in H. lia.
Qed.

End PlainReporter.

(** ** The layout of a table *)

Section Layout.
Variable ToLower : string -> string.
Variable fmtFloat1 : spec_float -> string.

Lemma vulnRows_row v :
  vulnRows ToLower fmtFloat1 v = Some [tableRow ToLower fmtFloat1 v].
Proof.
  unfold vulnRows, tableRow, descCell, renderedDescription.
  destruct (truncate_within (Description v) (width 3)) as (r & E & Hlen & _).
  { unfold width. simpl. lia. }
  rewrite E.
  pose proof (RuneCount_le_len r) as H1.
  pose proof (RuneCount_joinSp_Fields r) as H2.
  unfold wrapText. rewrite wrapWords_single by lia. reflexivity.
Qed.

Lemma tableRows_cons v vulns rows :
  tableRows ToLower fmtFloat1 vulns = Some rows ->
  tableRows ToLower fmtFloat1 (v :: vulns)
  = Some (tableRow ToLower fmtFloat1 v
          :: (match vulns with [] => [] | _ => printTableLine "mid" widths end
              ++ rows))%list.
Proof.
  intros H. cbn [tableRows]. rewrite vulnRows_row, H. reflexivity.
Qed.

(** X11. The body of a table has exactly one row for each vulnerability, in
    order, with one separator between two rows and none after the last. *)
Theorem table_rows_layout (vulns : list Vulnerability) :
  tableRows ToLower fmtFloat1 vulns
  = Some (separatedRows ToLower fmtFloat1 vulns)
  /\ forall dep,
       printVulnTable ToLower fmtFloat1 dep vulns <> None.
Proof.
  assert (G : forall vs, tableRows ToLower fmtFloat1 vs
                         = Some (separatedRows ToLower fmtFloat1 vs)).
  { induction vs as [|v vs IH]; [reflexivity|].
    rewrite (tableRows_cons v vs _ IH).
    destruct vs as [|v' vs]; [reflexivity|].
    cbn [separatedRows flat_map]. rewrite <- app_assoc. reflexivity. }
  split; [apply G|]. intros dep. unfold printVulnTable. now rewrite G.
Qed.

End Layout.

(** ** The two drivers *)

Section TwoDrivers.
Variable ToLower : string -> string.
Variable fmtFloat1 : spec_float -> string.
Variable env : Env.
Variable notExist : string -> bool.

Lemma plain_block_out r : onlyOut (Plain.block fmtFloat1 r).
Proof.
  unfold Plain.block. apply onlyOut_cons.
  unfold onlyOut. apply Forall_forall. intros e He.
  apply in_flat_map in He. destruct He as (v & _ & He).
  unfold Plain.vulnLines in He. cbn in He.
  destruct He as [<-|[<-|[<-|[<-|[<-|[]]]]]]; eauto.
Qed.

Lemma plain_report_out results : onlyOut (Plain.printReport fmtFloat1 results).
Proof.
  unfold Plain.printReport. rewrite plain_fold. cbn [orb app].
  assert (B : onlyOut (flat_map (Plain.block fmtFloat1) (filter isAffected results))).
  { unfold onlyOut. apply Forall_forall. intros e He.
    apply in_flat_map in He. destruct He as (r & _ & He).
    pose proof (plain_block_out r) as Hb. unfold onlyOut in Hb.
    rewrite Forall_forall in Hb. now apply Hb. }
  destruct (existsb isAffected results); cbn [negb]; [exact B|].
  apply onlyOut_app; [exact B | apply onlyOut_cons; constructor].
Qed.

Lemma exitStatus_onlyOut t : onlyOut t -> exitStatus t = Some 0.
Proof.
  unfold exitStatus. intros H.
  destruct t as [|e t] using rev_ind; [reflexivity|].
  rewrite last_last. unfold onlyOut in H. apply Forall_app in H.
  destruct H as [_ H]. inversion H as [|? ? [s ->] _]; subst. reflexivity.
Qed.

Lemma plain_report_nonempty results : Plain.printReport fmtFloat1 results <> [].
Proof.
  unfold Plain.printReport. rewrite plain_fold. cbn [orb app].
  destruct (existsb isAffected results) eqn:E; cbn [negb].
  - apply existsb_exists in E. destruct E as (r & Hin & Hr).
    intros H.
    assert (Hf : In r (filter isAffected results)) by (apply filter_In; auto).
    destruct (filter isAffected results) as [|r0 rs]; [contradiction|].
    cbn in H. discriminate.
  - destruct (flat_map (Plain.block fmtFloat1) (filter isAffected results));
      discriminate.
Qed.

Lemma after_parse_same lang parsed :
  posts (Plain.afterParse fmtFloat1 env parsed)
  = posts (afterParse ToLower fmtFloat1 env lang parsed)
  /\ exitStatus (Plain.afterParse fmtFloat1 env parsed)
     = exitStatus (afterParse ToLower fmtFloat1 env lang parsed).
Proof.
  destruct parsed as [cs|e]; [|split; reflexivity].
  cbn [Plain.afterParse afterParse].
  destruct (Z.of_nat (List.length cs) =? 0); [split; reflexivity|].
  destruct (checkVulnerabilities env cs) as [results|e]; [|split; reflexivity].
  split.
  - pose proof (posts_onlyOut _ (plain_report_out results)) as P1.
    pose proof (posts_onlyOut _ (report_out ToLower fmtFloat1 results)) as P2.
    unfold posts in *. cbn [filter isPost]. now rewrite P1, P2.
  - rewrite !exitStatus_cons;
      try discriminate;
      try apply plain_report_nonempty; try apply report_nonempty.
    rewrite (exitStatus_onlyOut _ (plain_report_out results)).
    now rewrite (exitStatus_onlyOut _ (report_out ToLower fmtFloat1 results)).
Qed.

(** X21. For two arguments, a selector written in lower case and, when the
    selector is [go] or [java], a manifest of that ecosystem that exists,
    the plain reporter and [main.go] send the same request (or both none)
    and end with the same status: they differ in what they print only. *)
Theorem plain_same_request (prog lang path : string) :
  ToLower lang = lang ->
  (lang = "go" -> notExist (Join env path "go.mod") = false) ->
  (lang = "java" -> notExist (Join env path "pom.xml") = false) ->
  posts (Plain.main ToLower fmtFloat1 env notExist [prog; lang; path])
  = posts (main ToLower fmtFloat1 env [prog; lang; path])
  /\ exitStatus (Plain.main ToLower fmtFloat1 env notExist [prog; lang; path])
     = exitStatus (main ToLower fmtFloat1 env [prog; lang; path]).
Proof.
  intros El Ng Np. unfold Plain.main, main. rewrite El.
  assert (N : forall parsed, Plain.afterParse fmtFloat1 env parsed <> []).
  { intros [cs|e]; cbn [Plain.afterParse]; [|discriminate].
    destruct (Z.of_nat (List.length cs) =? 0); discriminate. }
  assert (M : forall parsed, afterParse ToLower fmtFloat1 env lang parsed <> []).
  { intros [cs|e]; cbn [afterParse]; [|discriminate].
    destruct (Z.of_nat (List.length cs) =? 0); discriminate. }
  destruct (String.eqb_spec lang "go") as [Hgo|_].
  - rewrite (Ng Hgo).
    destruct (after_parse_same lang (parseGoMod (open env) (Join env path "go.mod")))
      as [Hp He].
    split.
    + unfold posts in *. cbn [filter isPost]. exact Hp.
    + rewrite !exitStatus_cons; auto; discriminate.
  - destruct (String.eqb_spec lang "java") as [Hjava|_]; [|split; reflexivity].
    rewrite (Np Hjava).
    destruct (after_parse_same lang (parsePomXML (readXML env) (Join env path "pom.xml")))
      as [Hp He].
    split.
    + unfold posts in *. cbn [filter isPost]. exact Hp.
    + rewrite !exitStatus_cons; auto; discriminate.
Qed.

End TwoDrivers.

Lemma plain_same_request_witness :
  Strings.ToLowerASCII "go" = "go"
  /\ ("go" = "go" -> String.eqb "/src/m/go.mod" "/src/m/pom.xml" = false)
  /\ posts (Plain.main Strings.ToLowerASCII sampleFmt
              (sampleEnv ("require (" ++ NL ++ "  a.b/c v1.0.0" ++ NL ++ ")" ++ NL) [] [])
              (fun p => String.eqb p "/src/m/pom.xml") ["vulnscanner"; "go"; "/src/m"])
     = posts (main Strings.ToLowerASCII sampleFmt
                (sampleEnv ("require (" ++ NL ++ "  a.b/c v1.0.0" ++ NL ++ ")" ++ NL) [] [])
                ["vulnscanner"; "go"; "/src/m"]).
Proof.
  split; [reflexivity|]. split; [intros _; reflexivity|].
  exact (proj1 (plain_same_request Strings.ToLowerASCII sampleFmt
                  (sampleEnv ("require (" ++ NL ++ "  a.b/c v1.0.0" ++ NL ++ ")" ++ NL) [] [])
                  (fun p => String.eqb p "/src/m/pom.xml")
                  "vulnscanner" "go" "/src/m"
                  eq_refl (fun _ => eq_refl)
                  (fun H => ltac:(discriminate H)))).
Defined.
